(** * DeepPavlov: cosine-similarity classifier and chit-chat re-ranker

    A shallow embedding of
    - [deeppavlov/models/classifiers/cos_sim_classifier.py]
      ([CosineSimilarityClassifier.fit] and [__call__]) and
    - [deeppavlov/models/ranking/chitchat_reranker.py]
      ([ChitChatReRanker.__call__]),
    followed by the properties of the two components.

    Conventions of the embedding.
    - Python exceptions are values of [exn]; a computation that may raise
      returns a [result].
    - [float64] numbers are read as real numbers ([R]): rounding error,
      infinities and NaN are outside the model.  Where the code would
      produce NaN (a division by an exact zero) the theorems carry the
      corresponding side condition.
    - numpy arrays are lists (one dimension) or lists of rows (two
      dimensions); the broadcasting rules the code runs into are written out
      case by case.
    - [np.random.choice] draws through an explicit source of uniform samples
      in the unit interval (its inverse-CDF implementation).
    - Iterating a Python [set] gives its elements in an order the language
      leaves open; the order is a parameter of the re-ranker. *)

From Stdlib Require Import Reals Lra Lia List String Ascii ZArith Bool Arith.
From Stdlib Require Import Permutation Sorted Zfloor.
Import ListNotations.

Set Implicit Arguments.

(* ================================================================== *)
(** * Part I: the embedding *)
(* ================================================================== *)

(** ** Python run-time: exceptions, indexing, slicing *)

Module Py.

Inductive exn : Set :=
| IndexError
| ValueError
| TypeError
| ZeroDivisionError
| NotImplementedError
| AttributeError.

Inductive result (A : Type) : Type :=
| Ok (a : A)
| Raise (e : exn).

Arguments Ok {A} a.
Arguments Raise {A} e.

Definition bind {A B : Type} (m : result A) (k : A -> result B) : result B :=
  match m with
  | Ok a => k a
  | Raise e => Raise e
  end.

Definition is_ok {A : Type} (m : result A) : bool :=
  match m with Ok _ => true | Raise _ => false end.

(** [l[k]] for a non-negative index. *)
Definition getitem {A : Type} (l : list A) (k : nat) : result A :=
  match nth_error l k with
  | Some a => Ok a
  | None => Raise IndexError
  end.

(** [l[k]] for an integer index: a negative [k] counts from the end. *)
Definition getitem_int {A : Type} (l : list A) (k : Z) : result A :=
  if (0 <=? k)%Z then getitem l (Z.to_nat k)
  else if (0 <=? Z.of_nat (List.length l) + k)%Z
       then getitem l (Z.to_nat (Z.of_nat (List.length l) + k))
       else Raise IndexError.

(** [l[a:b]] and [l[a:]] for non-negative bounds; a slice never raises. *)
Definition slice {A : Type} (l : list A) (a b : nat) : list A :=
  firstn (b - a) (skipn a l).

Definition slice_from {A : Type} (l : list A) (a : nat) : list A :=
  skipn a l.

(** [l[-n:]]: the last [n] items; [-0] is [0], so [l[-0:]] is all of [l]. *)
Definition slice_last {A : Type} (l : list A) (n : nat) : list A :=
  match n with
  | O => l
  | S _ => skipn (List.length l - n) l
  end.

(** [[f(x) for x in l]] where [f] may raise. *)
Fixpoint traverse {A B : Type} (f : A -> result B) (l : list A)
  : result (list B) :=
  match l with
  | [] => Ok []
  | x :: l' =>
      bind (f x) (fun y => bind (traverse f l') (fun ys => Ok (y :: ys)))
  end.

(** [range(n)] *)
Definition range (n : nat) : list nat := seq 0 n.

(** [x in l] for strings *)
Definition str_in (x : string) (l : list string) : bool :=
  existsb (String.eqb x) l.

(** [m] raises only exceptions that satisfy [P]. *)
Definition raises_only {A : Type} (P : exn -> Prop) (m : result A) : Prop :=
  forall e, m = Raise e -> P e.

(** Every exception but the unsupported-type one. *)
Definition other (e : exn) : Prop := e <> NotImplementedError.

(** The exception of a lookup that fails. *)
Definition index_error (e : exn) : Prop := e = IndexError.

(** The characters of a string, each as a one-character string: indexing
    and slicing a Python [str] behave as they do on this list. *)
Fixpoint chars (s : string) : list string :=
  match s with
  | EmptyString => []
  | String c s' => String c EmptyString :: chars s'
  end.

End Py.

Import Py.

Declare Scope py_scope.
Delimit Scope py_scope with py.
Notation "x <- m ;; k" := (bind m (fun x => k))
  (at level 61, m at next level, right associativity) : py_scope.
Notation "' pat <- m ;; k" :=
  (bind m (fun x => match x with pat => k end))
  (at level 61, pat pattern, m at next level, right associativity) : py_scope.
Open Scope py_scope.

(** ** The numpy operations the two components call *)

Module Np.

Open Scope R_scope.

Definition Rltb (x y : R) : bool := if Rlt_dec x y then true else false.
Definition Rleb (x y : R) : bool := if Rle_dec x y then true else false.

(** [a.sum()] of a one-dimensional array *)
Definition sum (a : list R) : R := fold_right Rplus 0 a.

(** [np.arange(n)] *)
Definition arange (n : nat) : list R := map INR (seq 0 n).

(** [a / c] for an array [a] and a scalar [c] *)
Definition div_scalar (a : list R) (c : R) : list R :=
  map (fun x => x / c) a.

(** [a.cumsum()] *)
Fixpoint cumsum_from (acc : R) (a : list R) : list R :=
  match a with
  | [] => []
  | x :: a' => (acc + x) :: cumsum_from (acc + x) a'
  end.

Definition cumsum (a : list R) : list R := cumsum_from 0 a.

(** [cdf.searchsorted(u, side='right')] on a non-decreasing [cdf]: the
    first position whose entry exceeds [u]. *)
Fixpoint searchsorted_right (cdf : list R) (u : R) : nat :=
  match cdf with
  | [] => O
  | c :: cdf' => if Rleb c u then S (searchsorted_right cdf' u) else O
  end.

(** The tolerance of [np.random.choice] on the sum of [p]:
    [sqrt(finfo(float64).eps)], that is [2 ** -26]. *)
Definition atol : R := / 2 ^ 26.

(** [np.random.choice(a, p=p)] with [u] the value [random_sample()] draws
    (uniform in the half-open unit interval): the argument checks of the
    legacy generator, then the inverse of the normalised cumulative sum. *)
Definition random_choice (a : list nat) (p : list R) (u : R) : result nat :=
  if Nat.eqb (List.length a) 0 then Raise ValueError
  else if negb (Nat.eqb (List.length p) (List.length a)) then Raise ValueError
  else if existsb (fun x => Rltb x 0) p then Raise ValueError
  else if Rltb atol (Rabs (sum p - 1)) then Raise ValueError
  else
    let cdf := cumsum p in
    let cdf := div_scalar cdf (last cdf 0) in
    getitem a (searchsorted_right cdf u).

(** [np.sum(a, axis=1)] of a two-dimensional array *)
Definition sum_axis1 (a : list (list R)) : list R := map sum a.

(** The number of columns of a two-dimensional array with at least one
    row. *)
Definition ncols (a : list (list R)) : nat := List.length (hd [] a).

(** [a / b] for a two-dimensional [a] and a one-dimensional [b].  numpy
    aligns [b] with the last axis of [a]: the two lengths have to agree
    unless one of them is 1, and a length of 1 is stretched.  The
    quotients are those of the code where no entry of [b] is zero: on a
    zero entry numpy warns and returns [nan] or an infinity, which is no
    real number. *)
Definition div_broadcast (a : list (list R)) (b : list R)
  : result (list (list R)) :=
  if Nat.eqb (ncols a) (List.length b) then
    Ok (map (fun row => map (fun p => fst p / snd p) (combine row b)) a)
  else if Nat.eqb (List.length b) 1 then
    Ok (map (fun row => map (fun x => x / hd 0 b) row) a)
  else if Nat.eqb (ncols a) 1 then
    Ok (map (fun row => map (fun c => hd 0 row / c) b) a)
  else Raise ValueError.

(** The inner product of two rows of equal length. *)
Definition dot (u v : list R) : R :=
  sum (map (fun p => fst p * snd p) (combine u v)).

(** [linalg.norm(v)] of a one-dimensional [v], and each entry of
    [linalg.norm(m, axis=1)]. *)
Definition norm (v : list R) : R := sqrt (sum (map (fun x => x * x) v)).

(** [linalg.norm(m)] of a two-dimensional [m] with no [axis]: the
    Frobenius norm, over all the entries of [m].  [sparse_norm(m)] is the
    same number. *)
Definition norm_all (m : list (list R)) : R := norm (List.concat m).

Definition norm_axis1 (m : list (list R)) : list R := map norm m.

(** [q.dot(x.T)] for two-dimensional [q] and [x]: the inner dimensions
    have to agree. *)
Definition dot_T (q x : list (list R)) : result (list (list R)) :=
  if forallb (fun row => Nat.eqb (List.length row) (ncols q)) x
  then Ok (map (fun qi => map (fun xk => dot qi xk) x) q)
  else Raise ValueError.

(** [np.max(cols, axis=0)] of a non-empty list of one-dimensional arrays
    of one length: the entry-wise maximum. *)
Fixpoint max_axis0 (cols : list (list R)) : list R :=
  match cols with
  | [] => []
  | [c] => c
  | c :: cols' => map (fun p => Rmax (fst p) (snd p)) (combine c (max_axis0 cols'))
  end.

(** [np.unique] of a list of strings: the distinct strings in increasing
    order. *)
Fixpoint insert_unique (s : string) (l : list string) : list string :=
  match l with
  | [] => [s]
  | x :: l' =>
      match String.compare s x with
      | Lt => s :: l
      | Eq => l
      | Gt => x :: insert_unique s l'
      end
  end.

Definition unique (l : list string) : list string :=
  fold_right insert_unique [] l.

(** [np.argsort(row)] with the default sort kind.  On a row of at most
    16 entries (here: at most 16 distinct labels) the default introsort
    is its closing insertion sort: each position in turn moves left past
    the positions whose value is strictly larger, so equal values keep
    their order. *)
Fixpoint argsort_insert (row : list R) (i : nat) (sorted : list nat)
  : list nat :=
  match sorted with
  | [] => [i]
  | j :: sorted' =>
      if Rltb (nth i row 0) (nth j row 0) then i :: sorted
      else j :: argsort_insert row i sorted'
  end.

Definition argsort (row : list R) : list nat :=
  fold_left (fun sorted i => argsort_insert row i sorted)
            (range (List.length row)) [].

(** [np.rint]: the nearest integer, a tie going to the even one. *)
Definition rint (x : R) : Z :=
  let f := Zfloor x in
  let r := x - IZR f in
  if Rltb r (1 / 2) then f
  else if Rltb (1 / 2) r then (f + 1)%Z
  else if Z.even f then f else (f + 1)%Z.

(** [np.round(x, decimals)] *)
Definition round (x : R) (decimals : nat) : R :=
  IZR (rint (x * 10 ^ decimals)) / 10 ^ decimals.



End Np.

(** ** [ChitChatReRanker] *)

Module ChitChatReRanker.

Open Scope R_scope.

(** The attributes [__init__] sets. *)
Record t : Type := {
  num_context_turns : nat;
  lambda_coeff : R
}.

(** [np.array(xs).squeeze().tolist()] on a list of tags: a list of two or
    more tags comes back as it is; a single tag becomes a zero-dimensional
    array, and [tolist] returns the tag itself, a [str], which the body of
    the loop then indexes and slices character by character; the empty list
    stays empty. *)
Definition squeeze_tolist (xs : list string) : list string :=
  match xs with
  | [s] => chars s
  | _ => xs
  end.

(** Lines 53-57: the tags cut into groups of [batch_size]. *)
Definition reshape (tags : list string) (batch_size n_groups : nat)
  : list (list string) :=
  map (fun i => squeeze_tolist (slice tags (i * batch_size) ((i + 1) * batch_size)))
      (range n_groups).

(** [[j for j in range(n) if keep(tags[j])]]; [tags[j]] may raise. *)
Fixpoint index_filter (keep : string -> bool) (tags : list string)
  (js : list nat) : result (list nat) :=
  match js with
  | [] => Ok []
  | j :: js' =>
      tag <- getitem tags j ;;
      rest <- index_filter keep tags js' ;;
      Ok (if keep tag then j :: rest else rest)
  end.

(** Lines 72-76. *)
Definition filter_intents (last_utter_intent : string)
  (responses_intents : list string) (n : nat) : result (list nat) :=
  let filtered_intents_idx := range n in
  if String.eqb last_utter_intent "interrogative" then
    index_filter (fun tag => str_in tag ["declarative"; "imperative"]%string)
                 responses_intents (range n)
  else if String.eqb last_utter_intent "imperative" then
    index_filter (fun tag => str_in tag ["declarative"]%string)
                 responses_intents (range n)
  else Ok filtered_intents_idx.

(** Lines 85-98: the default comprehension is evaluated first, whatever
    the last utterance's sentiment is. *)
Definition filter_sentiment (last_utter_sentiment : string)
  (responses_sentiment : list string) (n : nat) : result (list nat) :=
  filtered_sentiment_idx <-
    index_filter (fun tag => negb (str_in tag ["negative"; "skip"]%string))
                 responses_sentiment (range n) ;;
  if String.eqb last_utter_sentiment "negative" then
    index_filter (fun tag => negb (str_in tag ["negative"; "skip"]%string))
                 responses_sentiment (range n)
  else if String.eqb last_utter_sentiment "neutral" then
    index_filter (fun tag => str_in tag ["neutral"; "positive"]%string)
                 responses_sentiment (range n)
  else if String.eqb last_utter_sentiment "speech" then
    index_filter (fun tag => String.eqb tag "speech")
                 responses_sentiment (range n)
  else if String.eqb last_utter_sentiment "positive" then
    index_filter (fun tag => String.eqb tag "positive")
                 responses_sentiment (range n)
  else Ok filtered_sentiment_idx.

(** The members of [set(a).intersection(set(b))], listed along [a]. *)
Definition intersection (a b : list nat) : list nat :=
  filter (fun j => existsb (Nat.eqb j) b) (nodup Nat.eq_dec a).

(** Lines 123-125: the sampling distribution over a pool of [n]
    candidates, with the numbers read as reals; [sampling_weights64]
    below is the same computation with the rounding of binary64. *)
Definition sampling_weights (self : t) (n : nat) : list R :=
  let i := Np.arange n in
  let w := map (fun k => exp (- k / lambda_coeff self)) i in
  Np.div_scalar w (Np.sum w).

(** The unnormalised weight of pool position [k], as the specification
    writes it. *)
Definition weight (self : t) (k : nat) : R :=
  exp (- INR k / lambda_coeff self).

Section Call.

(** [list(s)] for a set [s], given by the list of its members: the
    iteration order of the interpreter. *)
Variable set_iter : list nat -> list nat.

Variable self : t.
Variable top_responses_batch : list (list string).
Variable top_scores_batch : list (list R).
Variable sentiment_batch : list string.
Variable intents_batch : list string.

(** The [i]-th value [random_sample()] returns during the call. *)
Variable random_sample : nat -> R.

(** Lines 103-120: the candidates and their scores. *)
Definition select (responses : list string) (i : nat)
  (filtered_intents_idx filtered_sentiment_idx : list nat)
  : result (list string * list R) :=
  let idx := set_iter (intersection filtered_intents_idx filtered_sentiment_idx) in
  if Nat.ltb 0 (List.length idx) then
    candidates <- traverse (getitem responses) idx ;;
    scores_i <- getitem top_scores_batch i ;;
    scores <- traverse (getitem scores_i) idx ;;
    Ok (candidates, scores)
  else if negb (Nat.eqb (List.length filtered_sentiment_idx) 0) then
    candidates <- traverse (getitem responses) filtered_sentiment_idx ;;
    scores_i <- getitem top_scores_batch i ;;
    scores <- traverse (getitem scores_i) filtered_sentiment_idx ;;
    Ok (candidates, scores)
  else if negb (Nat.eqb (List.length filtered_intents_idx) 0) then
    candidates <- traverse (getitem responses) filtered_intents_idx ;;
    scores_i <- getitem top_scores_batch i ;;
    scores <- traverse (getitem scores_i) filtered_intents_idx ;;
    Ok (candidates, scores)
  else
    scores <- getitem top_scores_batch i ;;
    Ok (responses, scores).

(** Lines 66-98: the two index lists of batch element [i]. *)
Definition filters (reshaped_sentiment reshaped_intents : list (list string))
  (responses : list string) (i : nat) : result (list nat * list nat) :=
  let nct := num_context_turns self in
  intents_i <- getitem reshaped_intents i ;;
  last_utter_intent <- getitem_int intents_i (Z.of_nat nct - 1) ;;
  let responses_intents := slice_from intents_i nct in
  filtered_intents_idx <-
    filter_intents last_utter_intent responses_intents (List.length responses) ;;
  sentiment_i <- getitem reshaped_sentiment i ;;
  last_utter_sentiment <- getitem_int sentiment_i (Z.of_nat nct - 1) ;;
  let responses_sentiment := slice_from sentiment_i nct in
  filtered_sentiment_idx <-
    filter_sentiment last_utter_sentiment responses_sentiment
                     (List.length responses) ;;
  Ok (filtered_intents_idx, filtered_sentiment_idx).

(** Lines 123-132: draw one candidate of the pool. *)
Definition sample (candidates : list string) (scores : list R) (u : R)
  : result (string * R) :=
  let w := sampling_weights self (List.length candidates) in
  chosen_index <- Np.random_choice (range (List.length candidates)) w u ;;
  response <- getitem candidates chosen_index ;;
  pred <- getitem scores chosen_index ;;
  Ok (response, pred).

(** The body of the loop of line 62 for batch element [i]. *)
Definition element (reshaped_sentiment reshaped_intents : list (list string))
  (i : nat) : result (string * R) :=
  responses <- getitem top_responses_batch i ;;
  '(filtered_intents_idx, filtered_sentiment_idx) <-
    filters reshaped_sentiment reshaped_intents responses i ;;
  '(candidates, scores) <-
    select responses i filtered_intents_idx filtered_sentiment_idx ;;
  sample candidates scores (random_sample i).

(** The loop of line 62, with the two lists it appends to. *)
Fixpoint loop (reshaped_sentiment reshaped_intents : list (list string))
  (ids : list nat) (responses_batch : list string) (responses_preds : list R)
  : result (list string * list R) :=
  match ids with
  | [] => Ok (responses_batch, responses_preds)
  | i :: ids' =>
      '(response, pred) <- element reshaped_sentiment reshaped_intents i ;;
      loop reshaped_sentiment reshaped_intents ids'
           (responses_batch ++ [response]) (responses_preds ++ [pred])
  end.

(** [ChitChatReRanker.__call__] *)
Definition __call__ : result (list string * list R) :=
  first <- getitem top_responses_batch 0 ;;
  let batch_size := (num_context_turns self + List.length first)%nat in
  if Nat.eqb batch_size 0 then Raise ZeroDivisionError
  else
    let n_groups := (List.length sentiment_batch / batch_size)%nat in
    let reshaped_sentiment := reshape sentiment_batch batch_size n_groups in
    let reshaped_intents := reshape intents_batch batch_size n_groups in
    loop reshaped_sentiment reshaped_intents
         (range (List.length top_responses_batch)) [] [].

(** The pool of the specification, as positions of the original
    candidate list: (a) the intersection of the two filtered index sets if
    it is not empty, (b) else the sentiment-filtered set if it is not
    empty, (c) else the intent-filtered set if it is not empty, (d) else
    every position. *)
Definition fallback_pool (intent_filtered sentiment_filtered : list nat)
  (n : nat) : list nat :=
  match set_iter (intersection intent_filtered sentiment_filtered) with
  | (_ :: _) as both => both
  | [] =>
      match sentiment_filtered, intent_filtered with
      | _ :: _, _ => sentiment_filtered
      | [], _ :: _ => intent_filtered
      | [], [] => range n
      end
  end.

(** The input contract of the specification: the batch is not empty; the
    tag streams hold a segment of [num_context_turns + len(first)] tags
    for every batch element; no candidate list is longer than the first
    (the segment width is taken from the first); every candidate has a
    base score.  A segment of width 1 is turned into its tag by the
    reshaping of lines 53-57, which the loop then indexes as a string:
    the tags are not empty strings. *)
Definition well_formed : Prop :=
  let width :=
    (num_context_turns self + List.length (hd [] top_responses_batch))%nat in
  (1 <= List.length top_responses_batch)%nat /\
  (1 <= width)%nat /\
  (width = 1%nat ->
   Forall (fun tag => tag <> ""%string) (sentiment_batch ++ intents_batch)) /\
  (List.length top_responses_batch * width <= List.length sentiment_batch)%nat /\
  (List.length top_responses_batch * width <= List.length intents_batch)%nat /\
  Forall2 (fun (responses : list string) (scores : list R) =>
             (List.length responses
              <= List.length (hd [] top_responses_batch))%nat /\
             (List.length responses <= List.length scores)%nat)
          top_responses_batch top_scores_batch.

(** What the specification asks of the two returned lists: one pair per
    batch element, the response a member of that element's candidate
    list and the score the base score at the same position. *)
Definition chosen_from (out : list string * list R) : Prop :=
  List.length (fst out) = List.length top_responses_batch /\
  List.length (snd out) = List.length top_responses_batch /\
  forall i, (i < List.length top_responses_batch)%nat ->
    exists p,
      nth_error (nth i top_responses_batch []) p
        = Some (nth i (fst out) ""%string) /\
      nth_error (nth i top_scores_batch []) p = Some (nth i (snd out) 0).

(** The random source keeps to the half-open unit interval. *)
Definition uniform : Prop := forall i, 0 <= random_sample i < 1.

End Call.

(** The positions a filter keeps are positions of the candidate list,
    each kept once. *)
Definition positions_of (n : nat) (l : list nat) : Prop :=
  NoDup l /\ forall j, In j l -> (j < n)%nat.

(** A set lists each of its members once, in some order. *)
Definition set_order (set_iter : list nat -> list nat) : Prop :=
  forall s, NoDup s -> Permutation (set_iter s) s.

(** The test lines 85-98 apply to a candidate's sentiment tag, given the
    sentiment of the last utterance. *)
Definition sentiment_keeps (last_utter_sentiment tag : string) : bool :=
  if String.eqb last_utter_sentiment "negative" then
    negb (str_in tag ["negative"; "skip"]%string)
  else if String.eqb last_utter_sentiment "neutral" then
    str_in tag ["neutral"; "positive"]%string
  else if String.eqb last_utter_sentiment "speech" then
    String.eqb tag "speech"
  else if String.eqb last_utter_sentiment "positive" then
    String.eqb tag "positive"
  else negb (str_in tag ["negative"; "skip"]%string).

(** The test lines 72-76 apply to a candidate's intent tag. *)
Definition intent_keeps (last_utter_intent tag : string) : bool :=
  if String.eqb last_utter_intent "interrogative" then
    str_in tag ["declarative"; "imperative"]%string
  else if String.eqb last_utter_intent "imperative" then
    str_in tag ["declarative"]%string
  else true.


(** What the body of the loop can raise for batch element [i]: a lookup
    that fails, or the refusal of [np.random.choice] to draw from nothing,
    which needs an empty candidate list. *)
Definition element_failure (top_responses_batch : list (list string))
  (i : nat) (e : exn) : Prop :=
  e = IndexError \/
  (e = ValueError /\ nth_error top_responses_batch i = Some []).

End ChitChatReRanker.

(** ** [CosineSimilarityClassifier] *)

Module CosineSimilarityClassifier.

Open Scope R_scope.

(** One vectorised sentence, as [isinstance] sees it. *)
Inductive vector : Type :=
| Dense (v : list R)     (** a one-dimensional [np.ndarray] *)
| Sparse (v : list R)    (** a [csr_matrix] of one row, given by that row *)
| PyNone                 (** [None]: no vector for this sentence *)
| Unsupported.           (** an object of another type, which numpy reads
                             as a scalar (a [str], a [dict], ...) *)

(** [q_vects : Union[csr_matrix, List]] *)
Inductive batch : Type :=
| CsrMatrix (rows : list (list R))   (** one sparse matrix, a row a query *)
| PyList (l : list vector).

(** What [fit] can leave in [x_train_features]. *)
Inductive features : Type :=
| NdArray (rows : list (list R))       (** [np.vstack] of dense rows *)
| CsrFeatures (rows : list (list R))   (** [scipy.sparse.vstack] *)
| ObjectArray (nrows : nat).           (** [np.vstack] over rows of width 1
                                           of which some are not numbers *)

(** A one- or two-dimensional array of numbers. *)
Inductive ndarray : Type :=
| Arr1 (a : list R)
| Arr2 (a : list (list R)).

(** The attributes of an instance; the two trained ones are unset until
    [fit] or [load] assigns them. *)
Record t : Type := {
  top_n : nat;
  x_train_features : option features;
  y_train : option (list string)
}.

Definition attr {A : Type} (a : option A) : result A :=
  match a with
  | Some v => Ok v
  | None => Raise AttributeError
  end.

Definition is_dense (x : vector) : bool :=
  match x with Dense _ => true | _ => false end.

Definition dense_row (x : vector) : list R :=
  match x with Dense v => v | _ => [] end.

(** The width [np.atleast_2d] gives an item: a one-dimensional array is
    one row of its length, a scalar object one row of one entry. *)
Definition width_2d (x : vector) : nat :=
  match x with Dense v => List.length v | _ => 1%nat end.

(** [np.vstack(xs)] for a list whose first item is a dense vector.  The
    widths have to agree; a stack holding an item that is not a dense
    vector is an array of objects. *)
Definition np_vstack (xs : list vector) : result features :=
  match xs with
  | [] => Raise ValueError
  | x :: _ =>
      if forallb (fun y => Nat.eqb (width_2d y) (width_2d x)) xs then
        if forallb is_dense xs then Ok (NdArray (map dense_row xs))
        else Ok (ObjectArray (List.length xs))
      else Raise ValueError
  end.

(** The block [scipy.sparse.vstack] makes of an item: a sparse row is
    kept, a dense vector is converted to a row, [None] is a missing block
    and any other object is refused. *)
Definition sparse_block (x : vector) : result (list R) :=
  match x with
  | Sparse v => Ok v
  | Dense v => Ok v
  | PyNone => Raise ValueError
  | Unsupported => Raise TypeError
  end.

(** [scipy.sparse.vstack(xs)] *)
Definition sparse_vstack (xs : list vector) : result features :=
  rows <- traverse sparse_block xs ;;
  if forallb (fun row => Nat.eqb (List.length row) (Np.ncols rows)) rows
  then Ok (CsrFeatures rows)
  else Raise ValueError.

(** [fit]: the instance after the call, and [None] or the exception. *)
Definition fit (self : t) (x_train_vects : list vector)
  (y_train' : list string) : t * result unit :=
  if negb (Nat.eqb (List.length x_train_vects) 0) then
    let stacked :=
      first <- getitem x_train_vects 0 ;;
      match first with
      | Sparse _ => sparse_vstack x_train_vects
      | Dense _ => np_vstack x_train_vects
      | _ => Raise NotImplementedError
      end in
    match stacked with
    | Raise e => (self, Raise e)
    | Ok x =>
        let self := {| top_n := top_n self;
                       x_train_features := Some x;
                       y_train := y_train self |} in
        let self := {| top_n := top_n self;
                       x_train_features := x_train_features self;
                       y_train := Some y_train' |} in
        (self, Ok tt)
    end
  else (self, Raise ValueError).

(** [np.array(q_vects)] for a list whose first item is a dense vector:
    dense vectors of one length make a two-dimensional array; any other
    list is ragged. *)
Definition np_array (l : list vector) : result (list (list R)) :=
  if forallb is_dense l
     && forallb (fun x => Nat.eqb (width_2d x) (width_2d (hd PyNone l))) l
  then Ok (map dense_row l)
  else Raise ValueError.

(** [len(x)] of the stored features; a sparse matrix has no length. *)
Definition len_features (x : features) : result nat :=
  match x with
  | NdArray rows => Ok (List.length rows)
  | CsrFeatures _ => Raise TypeError
  | ObjectArray n => Ok n
  end.

(** The quotient of lines 65-66 and 69-70: the products of the queries
    [q] with the training rows [x], over [norm].  The numbers are read as
    reals, so the quotient is that of the code up to the rounding of
    float64 and where no entry of [norm] is zero; numpy and scipy compute
    the same products and norms on dense and on sparse data, which is why
    the two branches of [cos_similarities] share this function. *)
Definition similarities (q x : list (list R)) : result ndarray :=
  let norm := map (fun n => Np.norm_all q * n) (Np.norm_axis1 x) in
  products <- Np.dot_T q x ;;
  cos_similarities <- Np.div_broadcast products norm ;;
  Ok (Arr2 cos_similarities).

(** Lines 64-74.  [q_vects[0]] is a row of the matrix when [q_vects] is
    a sparse matrix, and the first item when it is a list; [sparse_norm]
    refuses a list, and any argument that is not a sparse matrix. *)
Definition cos_similarities (self : t) (q_vects : batch) : result ndarray :=
  match q_vects with
  | CsrMatrix q =>
      _ <- getitem q 0 ;;
      x <- attr (x_train_features self) ;;
      match x with
      | CsrFeatures x => similarities q x
      | _ => Raise TypeError
      end
  | PyList l =>
      first <- getitem l 0 ;;
      match first with
      | Sparse _ => Raise TypeError
      | Dense _ =>
          q <- np_array l ;;
          x <- attr (x_train_features self) ;;
          match x with
          | NdArray x => similarities q x
          | CsrFeatures _ => Raise ValueError
          | ObjectArray _ => Raise TypeError
          end
      | PyNone =>
          x <- attr (x_train_features self) ;;
          n <- len_features x ;;
          Ok (Arr1 (repeat 0 n))
      | Unsupported => Raise NotImplementedError
      end
  end.

(** [len(a)] *)
Definition len (a : ndarray) : nat :=
  match a with
  | Arr1 a => List.length a
  | Arr2 a => List.length a
  end.

(** [a[:, k]] *)
Definition column (a : ndarray) (k : nat) : result (list R) :=
  match a with
  | Arr1 _ => Raise IndexError
  | Arr2 rows =>
      if Nat.ltb k (Np.ncols rows) then Ok (map (fun row => nth k row 0) rows)
      else Raise IndexError
  end.

(** [[k for k, value in enumerate(y) if value == label]] *)
Definition positions (label : string) (y : list string) : list nat :=
  map fst (filter (fun kv => String.eqb (snd kv) label)
                  (combine (range (List.length y)) y)).

(** Lines 78-80: the array whose column [i] holds, for every query, the
    largest similarity to a training vector labelled [y_labels[i]]. *)
Definition labels_scores (y : list string) (y_labels : list string)
  (cos_similarities : ndarray) : result (list (list R)) :=
  columns <-
    traverse (fun label =>
                cols <- traverse (column cos_similarities) (positions label y) ;;
                Ok (Np.max_axis0 cols))
             y_labels ;;
  Ok (map (fun r => map (fun col => nth r col 0) columns)
          (range (len cos_similarities))).

(** Lines 64-83: the scores before they are ranked and rounded. *)
Definition normalized (self : t) (q_vects : batch) : result (list (list R)) :=
  cos <- cos_similarities self q_vects ;;
  y <- attr (y_train self) ;;
  let y_labels := Np.unique y in
  scores <- labels_scores y y_labels cos ;;
  Np.div_broadcast scores (Np.sum_axis1 scores).

(** Line 84 and the reversal of lines 90-91, for one row. *)
Definition ranking (self : t) (row : list R) : list nat :=
  rev (slice_last (Np.argsort row) (top_n self)).

(** [CosineSimilarityClassifier.__call__] *)
Definition __call__ (self : t) (q_vects : batch)
  : result (list (list string) * list (list R)) :=
  scores <- normalized self q_vects ;;
  y <- attr (y_train self) ;;
  let y_labels := Np.unique y in
  rows <-
    traverse (fun row =>
                let ids := ranking self row in
                answer <- traverse (getitem y_labels) ids ;;
                Ok (answer, map (fun id => Np.round (nth id row 0) 2) ids))
             scores ;;
  Ok (map fst rows, map snd rows).

(** The similarity of the specification: [(q . t) / (|q| * |t|)], with
    the norm of the one query [q]. *)
Definition cosine (q t : list R) : R :=
  Np.dot q t / (Np.norm q * Np.norm t).




(** Position [i] of [row] ranks above position [j]: a larger score, or
    the same score at a later position. *)
Definition above (row : list R) (i j : nat) : Prop :=
  nth j row 0 < nth i row 0 \/ (nth j row 0 = nth i row 0 /\ (j < i)%nat).

(** The order in which [np.unique] lists the labels. *)
Definition str_lt (a b : string) : Prop := String.compare a b = Lt.

(** Lines 84-93 alone: what the call makes of the array [labels_scores]
    of line 83 and the labels [y_labels] of line 77.  The array is one of
    numbers: an entry that is [nan] or infinite, which numpy produces on
    lines 66, 70 and 83 when a norm or a row sum is zero, is no number,
    and such arrays are left out here. *)
Definition answers_and_scores (self : t) (y_labels : list string)
  (labels_scores : list (list R))
  : result (list (list string) * list (list R)) :=
  rows <-
    traverse (fun row =>
                let ids := ranking self row in
                answer <- traverse (getitem y_labels) ids ;;
                Ok (answer, map (fun id => Np.round (nth id row 0) 2) ids))
             labels_scores ;;
  Ok (map fst rows, map snd rows).

End CosineSimilarityClassifier.

(* ================================================================== *)
(** * Part II: properties *)
(* ================================================================== *)

(** ** Facts about the run-time *)

Lemma bind_ok {A B : Type} (m : result A) (k : A -> result B) (b : B) :
  bind m k = Ok b -> exists a, m = Ok a /\ k a = Ok b.
Proof.
  destruct m as [a|e]; simpl; intros H; [eauto | discriminate].
Qed.

Lemma bind_raise {A B : Type} (m : result A) (k : A -> result B) (e : exn) :
  bind m k = Raise e -> m = Raise e \/ exists a, m = Ok a /\ k a = Raise e.
Proof.
  destruct m as [a|e']; simpl; intros H; [right; eauto | left; congruence].
Qed.

Section PyFacts.

Context {A B : Type}.

Lemma getitem_ok (l : list A) (k : nat) (a : A) :
  getitem l k = Ok a <-> nth_error l k = Some a.
Proof.
  unfold getitem. destruct (nth_error l k); split; intros H;
    try discriminate; congruence.
Qed.

Lemma getitem_lt (l : list A) (k : nat) (d : A) :
  (k < List.length l)%nat -> getitem l k = Ok (nth k l d).
Proof.
  intros H. apply getitem_ok. now apply nth_error_nth'.
Qed.

Lemma getitem_ge (l : list A) (k : nat) :
  (List.length l <= k)%nat -> getitem l k = Raise IndexError.
Proof.
  intros H. unfold getitem.
  now rewrite (proj2 (nth_error_None l k) H).
Qed.

Lemma getitem_error (l : list A) (k : nat) (e : exn) :
  getitem l k = Raise e -> e = IndexError.
Proof.
  unfold getitem. destruct (nth_error l k); congruence.
Qed.

Lemma getitem_int_error (l : list A) (k : Z) (e : exn) :
  getitem_int l k = Raise e -> e = IndexError.
Proof.
  unfold getitem_int.
  destruct (0 <=? k)%Z; [apply getitem_error|].
  destruct (0 <=? Z.of_nat (List.length l) + k)%Z;
    [apply getitem_error | congruence].
Qed.

Lemma traverse_ok_length (f : A -> result B) (l : list A) (ys : list B) :
  traverse f l = Ok ys -> List.length ys = List.length l.
Proof.
  revert ys. induction l as [|x l IH]; simpl; intros ys H.
  - now inversion H.
  - apply bind_ok in H. destruct H as (y & _ & H).
    apply bind_ok in H. destruct H as (ys' & Hl & H).
    inversion H; subst. simpl. f_equal. now apply IH.
Qed.

Lemma traverse_total (f : A -> result B) (g : A -> B) (l : list A) :
  (forall x, In x l -> f x = Ok (g x)) -> traverse f l = Ok (map g l).
Proof.
  induction l as [|x l IH]; simpl; intros H; [reflexivity|].
  rewrite (H x (or_introl eq_refl)). simpl.
  rewrite IH by (intros y Hy; apply H; now right). reflexivity.
Qed.

Lemma traverse_ok_nth (f : A -> result B) (l : list A) (ys : list B)
  (k : nat) (y : B) :
  traverse f l = Ok ys -> nth_error ys k = Some y ->
  exists x, nth_error l k = Some x /\ f x = Ok y.
Proof.
  revert ys k. induction l as [|x l IH]; simpl; intros ys k H Hk.
  - inversion H; subst. destruct k; discriminate.
  - apply bind_ok in H. destruct H as (y0 & Hx & H).
    apply bind_ok in H. destruct H as (ys' & Hl & H).
    inversion H; subst. destruct k as [|k]; simpl in *.
    + inversion Hk; subst. eauto.
    + eapply IH; eauto.
Qed.

Lemma traverse_error (f : A -> result B) (l : list A) (e : exn) :
  traverse f l = Raise e -> exists x, In x l /\ f x = Raise e.
Proof.
  induction l as [|x l IH]; simpl; intros H; [discriminate|].
  apply bind_raise in H. destruct H as [H | (y & Hy & H)]; [eauto|].
  apply bind_raise in H. destruct H as [H | (ys & _ & H)]; [|discriminate].
  destruct (IH H) as (x' & Hin & Hx). eauto.
Qed.

Lemma map_nth_range (l : list A) (d : A) :
  map (fun j => nth j l d) (range (List.length l)) = l.
Proof.
  unfold range. induction l as [|x l IH]; [reflexivity|].
  simpl. f_equal. rewrite <- seq_shift, map_map. exact IH.
Qed.

Lemma slice_In (l : list A) (a b : nat) (x : A) :
  In x (slice l a b) -> In x l.
Proof.
  unfold slice. intros H.
  rewrite <- (firstn_skipn a l). apply in_or_app. right.
  rewrite <- (firstn_skipn (b - a) (skipn a l)). apply in_or_app. now left.
Qed.

Lemma nth_map_lt (f : A -> B) (l : list A) (d : B) (d' : A) (k : nat) :
  (k < List.length l)%nat -> nth k (map f l) d = f (nth k l d').
Proof.
  intros H. rewrite (nth_indep _ d (f d')) by now rewrite length_map.
  apply map_nth.
Qed.

End PyFacts.

(** ** Facts about sums and the sampling distribution *)

Module NpFacts.

Open Scope R_scope.

Lemma sum_app (a b : list R) : Np.sum (a ++ b) = Np.sum a + Np.sum b.
Proof.
  induction a as [|x a IH]; simpl; [lra | rewrite IH; lra].
Qed.

Lemma sum_div_scalar (a : list R) (c : R) :
  Np.sum (Np.div_scalar a c) = Np.sum a / c.
Proof.
  induction a as [|x a IH]; simpl.
  - unfold Rdiv. now rewrite Rmult_0_l.
  - fold (Np.div_scalar a c). rewrite IH. unfold Rdiv. ring.
Qed.

Lemma sum_pos (a : list R) :
  a <> [] -> Forall (fun x => 0 < x) a -> 0 < Np.sum a.
Proof.
  intros Hne Hall. induction Hall as [|x a Hx Hall IH]; [congruence|].
  simpl. destruct a as [|y a]; simpl in *; [lra|].
  assert (0 < y + Np.sum a) by (apply IH; discriminate). lra.
Qed.


Lemma Rltb_true (x y : R) : Np.Rltb x y = true <-> x < y.
Proof.
  unfold Np.Rltb. destruct (Rlt_dec x y); split; intros; try discriminate;
    tauto.
Qed.

Lemma Rltb_false (x y : R) : Np.Rltb x y = false <-> y <= x.
Proof.
  unfold Np.Rltb. destruct (Rlt_dec x y); split; intros; try discriminate;
    try reflexivity; lra.
Qed.

Lemma Rleb_true (x y : R) : Np.Rleb x y = true <-> x <= y.
Proof.
  unfold Np.Rleb. destruct (Rle_dec x y); split; intros; try discriminate;
    tauto.
Qed.



(** *** Rounding to the nearest double *)
















End NpFacts.

(** ** The re-ranker *)

Module ChitChatReRankerFacts.

Import ChitChatReRanker.
Open Scope R_scope.

Lemma weights_unfold (self : t) (n : nat) :
  sampling_weights self n =
  Np.div_scalar (map (weight self) (seq 0 n))
                (Np.sum (map (weight self) (seq 0 n))).
Proof.
  unfold sampling_weights, Np.arange, weight. now rewrite !map_map.
Qed.

Lemma weight_pos (self : t) (k : nat) : 0 < weight self k.
Proof. apply exp_pos. Qed.

Lemma total_weight_pos (self : t) (n : nat) :
  (1 <= n)%nat -> 0 < Np.sum (map (weight self) (seq 0 n)).
Proof.
  intros Hn. apply NpFacts.sum_pos.
  - destruct n; [lia | discriminate].
  - apply Forall_forall. intros x Hx. apply in_map_iff in Hx.
    destruct Hx as (k & <- & _). apply weight_pos.
Qed.

Lemma sampling_weights_length (self : t) (n : nat) :
  List.length (sampling_weights self n) = n.
Proof.
  rewrite weights_unfold. unfold Np.div_scalar.
  now rewrite !length_map, length_seq.
Qed.

Lemma sampling_weights_nth (self : t) (n k : nat) :
  (k < n)%nat ->
  nth k (sampling_weights self n) 0 =
  weight self k / Np.sum (map (weight self) (seq 0 n)).
Proof.
  intros Hk. rewrite weights_unfold. unfold Np.div_scalar.
  rewrite (nth_map_lt _ _ 0 0) by now rewrite length_map, length_seq.
  rewrite (nth_map_lt _ _ 0 0%nat) by now rewrite length_seq.
  now rewrite seq_nth.
Qed.

Lemma sampling_weights_sum (self : t) (n : nat) :
  (1 <= n)%nat -> Np.sum (sampling_weights self n) = 1.
Proof.
  intros Hn. rewrite weights_unfold, NpFacts.sum_div_scalar.
  pose proof (total_weight_pos self Hn). now field_simplify_eq; [|lra].
Qed.



(** *** The weights in binary64 *)



(** *** The filters *)

Lemma index_filter_ok (keep : string -> bool) (tags : list string)
  (js l : list nat) :
  index_filter keep tags js = Ok l ->
  l = filter (fun j => keep (nth j tags ""%string)) js /\
  (forall j, In j js -> (j < List.length tags)%nat).
Proof.
  revert l. induction js as [|j js IH]; simpl; intros l H.
  - inversion H. split; [reflexivity | intros j []].
  - apply bind_ok in H. destruct H as (tag & Htag & H).
    apply bind_ok in H. destruct H as (rest & Hrest & H).
    destruct (IH _ Hrest) as (-> & Hlt).
    apply getitem_ok in Htag.
    assert (Hj : (j < List.length tags)%nat)
      by (apply nth_error_Some; congruence).
    rewrite (nth_error_nth _ _ ""%string Htag).
    inversion H. split; [reflexivity|].
    intros j' [<-|Hin]; [exact Hj | now apply Hlt].
Qed.

Lemma index_filter_total (keep : string -> bool) (tags : list string)
  (js : list nat) :
  (forall j, In j js -> (j < List.length tags)%nat) ->
  index_filter keep tags js =
  Ok (filter (fun j => keep (nth j tags ""%string)) js).
Proof.
  induction js as [|j js IH]; simpl; intros H; [reflexivity|].
  rewrite (getitem_lt _ ""%string) by (apply H; now left). simpl.
  rewrite IH by (intros j' Hj'; apply H; now right). reflexivity.
Qed.

Lemma index_filter_error (keep : string -> bool) (tags : list string)
  (js : list nat) (e : exn) :
  index_filter keep tags js = Raise e -> e = IndexError.
Proof.
  induction js as [|j js IH]; simpl; intros H; [discriminate|].
  apply bind_raise in H. destruct H as [H | (tag & _ & H)].
  - now apply getitem_error in H.
  - apply bind_raise in H. destruct H as [H | (rest & _ & H)];
      [now apply IH | discriminate].
Qed.

Lemma positions_of_range (n : nat) : positions_of n (range n).
Proof.
  split; [apply seq_NoDup|]. intros j Hj. apply in_seq in Hj. lia.
Qed.

Lemma positions_of_filter (n : nat) (f : nat -> bool) :
  positions_of n (filter f (range n)).
Proof.
  destruct (positions_of_range n) as (Hnd & Hlt). split.
  - now apply NoDup_filter.
  - intros j Hj. apply filter_In in Hj. now apply Hlt.
Qed.

Lemma index_filter_positions (keep : string -> bool) (tags : list string)
  (n : nat) (l : list nat) :
  index_filter keep tags (range n) = Ok l -> positions_of n l.
Proof.
  intros H. apply index_filter_ok in H. destruct H as (-> & _).
  apply positions_of_filter.
Qed.

Lemma filter_intents_positions (last : string) (tags : list string)
  (n : nat) (l : list nat) :
  filter_intents last tags n = Ok l -> positions_of n l.
Proof.
  unfold filter_intents.
  destruct (String.eqb last "interrogative");
    [apply index_filter_positions|].
  destruct (String.eqb last "imperative");
    [apply index_filter_positions|].
  intros H. inversion H. apply positions_of_range.
Qed.

Lemma filter_sentiment_positions (last : string) (tags : list string)
  (n : nat) (l : list nat) :
  filter_sentiment last tags n = Ok l -> positions_of n l.
Proof.
  unfold filter_sentiment. intros H.
  apply bind_ok in H. destruct H as (l0 & H0 & H).
  destruct (String.eqb last "negative");
    [now apply index_filter_positions in H|].
  destruct (String.eqb last "neutral");
    [now apply index_filter_positions in H|].
  destruct (String.eqb last "speech");
    [now apply index_filter_positions in H|].
  destruct (String.eqb last "positive");
    [now apply index_filter_positions in H|].
  inversion H; subst. now apply index_filter_positions in H0.
Qed.

Lemma filters_positions (self : t) (rs ri : list (list string))
  (responses : list string) (i : nat) (fi fs : list nat) :
  filters self rs ri responses i = Ok (fi, fs) ->
  positions_of (List.length responses) fi /\
  positions_of (List.length responses) fs.
Proof.
  unfold filters. intros H.
  apply bind_ok in H. destruct H as (intents_i & _ & H).
  apply bind_ok in H. destruct H as (last_i & _ & H).
  apply bind_ok in H. destruct H as (fi' & Hfi & H).
  apply bind_ok in H. destruct H as (sentiment_i & _ & H).
  apply bind_ok in H. destruct H as (last_s & _ & H).
  apply bind_ok in H. destruct H as (fs' & Hfs & H).
  inversion H; subst. split.
  - eapply filter_intents_positions; eauto.
  - eapply filter_sentiment_positions; eauto.
Qed.

Lemma intersection_spec (a b : list nat) (j : nat) :
  In j (intersection a b) <-> In j a /\ In j b.
Proof.
  unfold intersection. rewrite filter_In, nodup_In, existsb_exists.
  split.
  - intros (Ha & x & Hx & Heq). apply Nat.eqb_eq in Heq. now subst.
  - intros (Ha & Hb). split; [exact Ha|].
    exists j. split; [exact Hb | apply Nat.eqb_refl].
Qed.

Lemma intersection_NoDup (a b : list nat) : NoDup (intersection a b).
Proof. apply NoDup_filter, NoDup_nodup. Qed.

Lemma intersection_disjoint (a b : list nat) :
  (forall j, In j a -> ~ In j b) -> intersection a b = [].
Proof.
  intros H. destruct (intersection a b) as [|j l] eqn:E; [reflexivity|].
  assert (Hj : In j (intersection a b)) by (rewrite E; now left).
  apply intersection_spec in Hj. destruct Hj as (Ha & Hb).
  now destruct (H j Ha).
Qed.

(** The scenario of the specification: the last utterance is
    interrogative and neutral, the candidates are declarative,
    interrogative and imperative, all neutral.  The intent filter keeps
    positions 0 and 2, the sentiment filter keeps all three, and the
    candidates handed to the sampling step are those at 0 and 2. *)
Example interrogative_scenario :
  let self := {| num_context_turns := 1; lambda_coeff := 10 |} in
  let intents :=
    [["interrogative"; "declarative"; "interrogative"; "imperative"]]%string in
  let sentiment := [["neutral"; "neutral"; "neutral"; "neutral"]]%string in
  filters self sentiment intents ["a"; "b"; "c"]%string 0
    = Ok ([0; 2]%nat, [0; 1; 2]%nat) /\
  select (fun s => s) [[3; 2; 1]] ["a"; "b"; "c"]%string 0
         [0; 2]%nat [0; 1; 2]%nat
    = Ok (["a"; "c"]%string, [3; 1]).
Proof. split; reflexivity. Qed.

(** *** The fallback chain *)

Section Pool.

Variable set_iter : list nat -> list nat.
Hypothesis set_iter_order : set_order set_iter.

Lemma set_iter_intersection (a b : list nat) (j : nat) :
  In j (set_iter (intersection a b)) <-> In j a /\ In j b.
Proof.
  rewrite <- intersection_spec.
  pose proof (set_iter_order (intersection_NoDup a b)) as Hp.
  split; intros H.
  - eapply Permutation_in; eauto.
  - eapply Permutation_in; [apply Permutation_sym|]; eauto.
Qed.

Lemma set_iter_nil : set_iter [] = [].
Proof.
  apply Permutation_nil, Permutation_sym, set_iter_order. constructor.
Qed.

Lemma gather (responses : list string) (scores : list R) (pool : list nat) :
  (forall j, In j pool -> (j < List.length responses)%nat) ->
  (List.length responses <= List.length scores)%nat ->
  traverse (getitem responses) pool
    = Ok (map (fun j => nth j responses ""%string) pool) /\
  traverse (getitem scores) pool = Ok (map (fun j => nth j scores 0) pool).
Proof.
  intros Hlt Hlen. split; apply traverse_total; intros j Hj;
    apply getitem_lt; specialize (Hlt j Hj); lia.
Qed.

(** C3.  For a batch element with a non-empty candidate list (and a base
    score for every candidate), the candidates and scores the loop body
    hands to the sampling step are those at the positions of a pool
    chosen in this order: the intersection of the intent-filtered and the
    sentiment-filtered positions if it is not empty; else the
    sentiment-filtered positions if there are any; else the
    intent-filtered positions if there are any; else every position.  In
    particular, two disjoint filtered sets with a non-empty
    sentiment-filtered one give exactly the sentiment-filtered set, and
    the pool is never empty. *)
Theorem select_follows_fallback_chain (self : t)
  (top_responses_batch : list (list string))
  (top_scores_batch : list (list R)) (random_sample : nat -> R)
  (reshaped_sentiment reshaped_intents : list (list string))
  (responses : list string) (scores : list R) (i : nat)
  (fi fs : list nat) :
  nth_error top_responses_batch i = Some responses ->
  (1 <= List.length responses)%nat ->
  nth_error top_scores_batch i = Some scores ->
  List.length responses = List.length scores ->
  filters self reshaped_sentiment reshaped_intents responses i = Ok (fi, fs) ->
  let pool := fallback_pool set_iter fi fs (List.length responses) in
  let candidates := map (fun j => nth j responses ""%string) pool in
  let pool_scores := map (fun j => nth j scores 0) pool in
  select set_iter top_scores_batch responses i fi fs
    = Ok (candidates, pool_scores) /\
  element set_iter self top_responses_batch top_scores_batch random_sample
          reshaped_sentiment reshaped_intents i
    = sample self candidates pool_scores (random_sample i) /\
  (1 <= List.length pool)%nat /\
  ((exists j, In j fi /\ In j fs) ->
   forall j, In j pool <-> In j fi /\ In j fs) /\
  ((forall j, In j fi -> ~ In j fs) ->
   match fs, fi with
   | _ :: _, _ => pool = fs
   | [], _ :: _ => pool = fi
   | [], [] => pool = range (List.length responses)
   end).
Proof.
  intros Hresp Hne Hsc Hlen Hf pool candidates pool_scores.
  destruct (filters_positions _ _ _ _ _ Hf) as ((_ & Hfi) & (_ & Hfs)).
  assert (Hsc' : getitem top_scores_batch i = Ok scores)
    by now apply getitem_ok.
  assert (Hin : forall j, In j pool -> (j < List.length responses)%nat).
  { intros j. unfold pool, fallback_pool.
    destruct (set_iter (intersection fi fs)) as [|j0 l] eqn:E.
    - destruct fs as [|s fs']; [destruct fi as [|f fi']|].
      + intros Hj. apply in_seq in Hj. lia.
      + apply Hfi.
      + apply Hfs.
    - rewrite <- E. intros Hj. apply set_iter_intersection in Hj.
      apply Hfi, Hj. }
  assert (Hlen' : (List.length responses <= List.length scores)%nat) by lia.
  destruct (gather responses scores pool Hin Hlen') as (Hc & Hs).
  assert (Hsel : select set_iter top_scores_batch responses i fi fs
                 = Ok (candidates, pool_scores)).
  { unfold select, candidates, pool_scores. revert Hc Hs.
    unfold pool, fallback_pool.
    destruct (set_iter (intersection fi fs)) as [|j0 l] eqn:E.
    - destruct fs as [|s fs']; [destruct fi as [|f fi']|];
        cbn [List.length Nat.ltb Nat.leb Nat.eqb negb]; intros Hc Hs.
      + rewrite Hsc'. cbn [bind]. rewrite Hlen at 2.
        now rewrite !map_nth_range.
      + rewrite Hc, Hsc'. cbn [bind]. now rewrite Hs.
      + rewrite Hc, Hsc'. cbn [bind]. now rewrite Hs.
    - cbn [List.length Nat.ltb Nat.leb]. intros Hc Hs.
      rewrite Hc, Hsc'. cbn [bind]. now rewrite Hs. }
  split; [exact Hsel|]. split.
  { unfold element. rewrite (proj2 (getitem_ok _ _ _) Hresp). cbn [bind].
    rewrite Hf. cbn [bind]. now rewrite Hsel. }
  split; [|split].
  - unfold pool, fallback_pool.
    destruct (set_iter (intersection fi fs)) as [|j0 l].
    + destruct fs as [|s fs']; [destruct fi as [|f fi']|]; simpl; try lia.
      unfold range. rewrite length_seq. exact Hne.
    + simpl. lia.
  - intros (j0 & Hj0) j. unfold pool, fallback_pool.
    apply set_iter_intersection in Hj0.
    destruct (set_iter (intersection fi fs)) as [|j1 l] eqn:E;
      [destruct Hj0|].
    rewrite <- E. apply set_iter_intersection.
  - intros Hdis. unfold pool, fallback_pool.
    rewrite (intersection_disjoint _ _ Hdis), set_iter_nil.
    destruct fs as [|s fs']; [destruct fi as [|f fi']|]; reflexivity.
Qed.

End Pool.

(** *** What a returned pair is *)

Section Returned.

Variable set_iter : list nat -> list nat.
Variable self : t.
Variable top_responses_batch : list (list string).
Variable top_scores_batch : list (list R).
Variable random_sample : nat -> R.

Lemma sample_ok (candidates : list string) (scores : list R) (u : R)
  (r : string) (s : R) :
  sample self candidates scores u = Ok (r, s) ->
  exists c, nth_error candidates c = Some r /\ nth_error scores c = Some s.
Proof.
  unfold sample. intros H.
  apply bind_ok in H. destruct H as (c & _ & H).
  apply bind_ok in H. destruct H as (r' & Hr & H).
  apply bind_ok in H. destruct H as (s' & Hs & H).
  inversion H; subst. exists c. split; now apply getitem_ok.
Qed.

Lemma gathered (responses : list string) (scores_i : list R)
  (pool : list nat) (candidates : list string) (scores : list R)
  (c : nat) (r : string) (s : R) :
  traverse (getitem responses) pool = Ok candidates ->
  traverse (getitem scores_i) pool = Ok scores ->
  nth_error candidates c = Some r -> nth_error scores c = Some s ->
  exists p, nth_error responses p = Some r /\ nth_error scores_i p = Some s.
Proof.
  intros Hc Hs Hr Hsc.
  destruct (traverse_ok_nth _ _ _ Hc Hr) as (p & Hp & Hpr).
  destruct (traverse_ok_nth _ _ _ Hs Hsc) as (p' & Hp' & Hps).
  assert (p' = p) by congruence. subst p'.
  exists p. split; now apply getitem_ok.
Qed.

Lemma select_ok (responses : list string) (i : nat) (fi fs : list nat)
  (candidates : list string) (scores : list R) :
  select set_iter top_scores_batch responses i fi fs = Ok (candidates, scores) ->
  exists scores_i,
    nth_error top_scores_batch i = Some scores_i /\
    forall c r s,
      nth_error candidates c = Some r -> nth_error scores c = Some s ->
      exists p,
        nth_error responses p = Some r /\ nth_error scores_i p = Some s.
Proof.
  unfold select. intros H.
  destruct (Nat.ltb 0 _);
    [|destruct (negb (Nat.eqb (List.length fs) 0));
      [|destruct (negb (Nat.eqb (List.length fi) 0))]].
  1-3: apply bind_ok in H; destruct H as (cs & Hc & H);
       apply bind_ok in H; destruct H as (scores_i & Hi & H);
       apply bind_ok in H; destruct H as (ss & Hs & H);
       inversion H; subst;
       exists scores_i; split; [now apply getitem_ok|];
       intros c r s; eapply gathered; eassumption.
  apply bind_ok in H. destruct H as (scores_i & Hi & H).
  inversion H; subst. exists scores. split; [now apply getitem_ok|].
  intros c r s Hr Hs. now exists c.
Qed.

Lemma element_ok (rs ri : list (list string)) (i : nat) (r : string) (s : R) :
  element set_iter self top_responses_batch top_scores_batch random_sample
          rs ri i = Ok (r, s) ->
  exists p,
    nth_error (nth i top_responses_batch []) p = Some r /\
    nth_error (nth i top_scores_batch []) p = Some s.
Proof.
  unfold element. intros H.
  apply bind_ok in H. destruct H as (responses & Hresp & H).
  apply bind_ok in H. destruct H as ((fi & fs) & _ & H).
  apply bind_ok in H. destruct H as ((candidates & scores) & Hsel & H).
  apply sample_ok in H. destruct H as (c & Hr & Hs).
  apply select_ok in Hsel. destruct Hsel as (scores_i & Hi & Hsel).
  destruct (Hsel _ _ _ Hr Hs) as (p & Hp & Hp').
  apply getitem_ok in Hresp.
  exists p. now rewrite (nth_error_nth _ _ [] Hresp), (nth_error_nth _ _ [] Hi).
Qed.

Lemma loop_ok (rs ri : list (list string)) (ids : list nat)
  (acc_r : list string) (acc_p : list R) (out : list string * list R) :
  loop set_iter self top_responses_batch top_scores_batch random_sample
       rs ri ids acc_r acc_p = Ok out ->
  exists new_r new_p,
    out = (acc_r ++ new_r, acc_p ++ new_p) /\
    List.length new_r = List.length ids /\
    List.length new_p = List.length ids /\
    forall k, (k < List.length ids)%nat ->
      element set_iter self top_responses_batch top_scores_batch
              random_sample rs ri (nth k ids 0%nat)
        = Ok (nth k new_r ""%string, nth k new_p 0).
Proof.
  revert acc_r acc_p. induction ids as [|i ids IH]; simpl; intros acc_r acc_p H.
  - inversion H. exists [], []. rewrite !app_nil_r.
    repeat split; intros; simpl in *; lia.
  - apply bind_ok in H. destruct H as ((r & s) & He & H).
    apply IH in H. destruct H as (new_r & new_p & -> & Hr & Hp & Hk).
    exists (r :: new_r), (s :: new_p). rewrite <- !app_assoc. simpl.
    repeat split; try lia.
    intros [|k] Hlt; [exact He | apply Hk; lia].
Qed.

Lemma call_ok (sentiment_batch intents_batch : list string)
  (out : list string * list R) :
  __call__ set_iter self top_responses_batch top_scores_batch sentiment_batch
       intents_batch random_sample = Ok out ->
  chosen_from top_responses_batch top_scores_batch out.
Proof.
  unfold __call__. intros H.
  apply bind_ok in H. destruct H as (first & _ & H).
  destruct (Nat.eqb _ 0); [discriminate|].
  apply loop_ok in H. destruct H as (new_r & new_p & -> & Hr & Hp & Hk).
  unfold range in *. rewrite length_seq in *. simpl.
  repeat split; try assumption.
  intros i Hi. specialize (Hk i Hi). rewrite seq_nth in Hk by assumption.
  now apply element_ok in Hk.
Qed.

End Returned.

(** *** The sampling step *)

Lemma searchsorted_right_lt (cdf : list R) (u : R) :
  (1 <= List.length cdf)%nat -> u < last cdf 0 ->
  (Np.searchsorted_right cdf u < List.length cdf)%nat.
Proof.
  induction cdf as [|c cdf IH]; simpl; intros Hne Hu; [lia|].
  destruct (Np.Rleb c u) eqn:E; [|lia].
  apply NpFacts.Rleb_true in E.
  destruct cdf as [|c' cdf']; [lra|].
  apply -> Nat.succ_lt_mono. apply IH; [simpl; lia | exact Hu].
Qed.

Lemma cumsum_from_length (acc : R) (a : list R) :
  List.length (Np.cumsum_from acc a) = List.length a.
Proof.
  revert acc. induction a as [|x a IH]; simpl; intros acc;
    [reflexivity | now rewrite IH].
Qed.

Lemma cumsum_from_last (acc : R) (a : list R) :
  (1 <= List.length a)%nat ->
  last (Np.cumsum_from acc a) 0 = acc + Np.sum a.
Proof.
  revert acc. induction a as [|x a IH]; simpl; intros acc Hne; [lia|].
  destruct a as [|y a]; [simpl; lra|].
  change (Np.cumsum_from (acc + x) (y :: a))
    with ((acc + x + y) :: Np.cumsum_from (acc + x + y) a) at 1.
  change (last (Np.cumsum_from (acc + x) (y :: a)) 0 = acc + (x + Np.sum (y :: a))).
  rewrite IH by (simpl; lia). lra.
Qed.

Lemma last_div_scalar (l : list R) (c : R) :
  (1 <= List.length l)%nat ->
  last (Np.div_scalar l c) 0 = last l 0 / c.
Proof.
  induction l as [|x l IH]; simpl; intros Hne; [lia|].
  destruct l as [|y l]; [reflexivity|].
  change (last (Np.div_scalar (y :: l) c) 0 = last (y :: l) 0 / c).
  apply IH. simpl. lia.
Qed.

Lemma random_choice_weights (self : t) (n : nat) (u : R) :
  (1 <= n)%nat -> 0 <= u < 1 ->
  exists k, (k < n)%nat /\
    Np.random_choice (range n) (sampling_weights self n) u = Ok k.
Proof.
  intros Hn Hu. unfold Np.random_choice, range.
  rewrite length_seq, sampling_weights_length, Nat.eqb_refl.
  destruct (Nat.eqb_spec n 0) as [->|_]; [lia|]. cbn [negb].
  assert (Hneg : existsb (fun x => Np.Rltb x 0) (sampling_weights self n)
                 = false).
  { apply not_true_is_false. intros H. apply existsb_exists in H.
    destruct H as (x & Hx & Hlt). apply NpFacts.Rltb_true in Hlt.
    apply (In_nth _ _ 0) in Hx. destruct Hx as (k & Hk & <-).
    rewrite sampling_weights_length in Hk.
    rewrite sampling_weights_nth in Hlt by assumption.
    pose proof (weight_pos self k). pose proof (total_weight_pos self Hn).
    assert (0 < weight self k / Np.sum (map (weight self) (seq 0 n)))
      by now apply Rdiv_lt_0_compat.
    lra. }
  rewrite Hneg, (sampling_weights_sum self Hn).
  assert (Htol : Np.Rltb Np.atol (Rabs (1 - 1)) = false).
  { apply NpFacts.Rltb_false. replace (1 - 1) with 0 by ring.
    rewrite Rabs_R0. unfold Np.atol.
    left. apply Rinv_0_lt_compat. apply pow_lt. lra. }
  rewrite Htol.
  set (cdf := Np.cumsum (sampling_weights self n)).
  assert (Hlen : List.length cdf = n)
    by (unfold cdf, Np.cumsum;
        now rewrite cumsum_from_length, sampling_weights_length).
  assert (Hlast : last cdf 0 = 1).
  { unfold cdf, Np.cumsum.
    rewrite cumsum_from_last by (rewrite sampling_weights_length; lia).
    rewrite (sampling_weights_sum self Hn). ring. }
  set (k := Np.searchsorted_right (Np.div_scalar cdf (last cdf 0)) u).
  assert (Hk : (k < n)%nat).
  { assert (Hl : List.length (Np.div_scalar cdf (last cdf 0)) = n)
      by (unfold Np.div_scalar; now rewrite length_map).
    rewrite <- Hl. apply searchsorted_right_lt.
    - rewrite Hl. exact Hn.
    - rewrite last_div_scalar by lia. rewrite Hlast. lra. }
  exists k. split; [exact Hk|].
  rewrite (getitem_lt _ 0%nat) by now rewrite length_seq.
  now rewrite seq_nth.
Qed.

Lemma sample_total (self : t) (candidates : list string) (scores : list R)
  (u : R) :
  (1 <= List.length candidates)%nat ->
  (List.length candidates <= List.length scores)%nat ->
  0 <= u < 1 ->
  exists out, sample self candidates scores u = Ok out.
Proof.
  intros Hne Hlen Hu. unfold sample.
  destruct (random_choice_weights self Hne Hu) as (k & Hk & ->).
  cbn [bind].
  rewrite (getitem_lt _ ""%string) by assumption. cbn [bind].
  rewrite (getitem_lt _ 0) by lia. cbn [bind]. eauto.
Qed.

Lemma sample_empty (self : t) (scores : list R) (u : R) :
  sample self [] scores u = Raise ValueError.
Proof. reflexivity. Qed.

(** *** Well-formed calls *)

Lemma slice_length {A : Type} (l : list A) (a b : nat) :
  (a <= b)%nat -> (b <= List.length l)%nat ->
  List.length (slice l a b) = (b - a)%nat.
Proof.
  intros Hab Hb. unfold slice. rewrite length_firstn, length_skipn. lia.
Qed.

Lemma squeeze_tolist_list (xs : list string) :
  (2 <= List.length xs)%nat -> squeeze_tolist xs = xs.
Proof.
  destruct xs as [|x [|y xs]]; simpl; intros H; try lia; reflexivity.
Qed.

Lemma chars_length (s : string) : List.length (chars s) = String.length s.
Proof. induction s as [|c s IH]; simpl; [reflexivity | now rewrite IH]. Qed.

Lemma squeeze_tolist_length (xs : list string) :
  Forall (fun tag => tag <> ""%string) xs ->
  (1 <= List.length xs)%nat ->
  (1 <= List.length (squeeze_tolist xs))%nat.
Proof.
  intros Hxs Hne. destruct xs as [|x [|y xs]]; simpl in *; try lia.
  apply Forall_inv in Hxs. rewrite chars_length.
  destruct x; [congruence | simpl; lia].
Qed.

Lemma reshape_nth (tags : list string) (batch_size n_groups i : nat) :
  (1 <= batch_size)%nat -> (i < n_groups)%nat ->
  ((i + 1) * batch_size <= List.length tags)%nat ->
  (batch_size = 1%nat -> Forall (fun tag => tag <> ""%string) tags) ->
  exists group,
    nth_error (reshape tags batch_size n_groups) i = Some group /\
    (batch_size <= List.length group)%nat.
Proof.
  intros Hbs Hi Hlen Htags.
  set (segment := slice tags (i * batch_size) ((i + 1) * batch_size)).
  assert (Hl : List.length segment = batch_size)
    by (unfold segment; rewrite slice_length; nia).
  exists (squeeze_tolist segment). split.
  - unfold reshape, range. rewrite nth_error_map.
    rewrite (nth_error_nth' _ 0%nat) by now rewrite length_seq.
    now rewrite seq_nth by assumption.
  - destruct (Nat.eq_dec batch_size 1) as [H1 | H1].
    + rewrite H1. apply squeeze_tolist_length; [|lia].
      apply Forall_forall. intros tag Htag.
      specialize (Htags H1). rewrite Forall_forall in Htags. apply Htags.
      eapply slice_In. exact Htag.
    + rewrite squeeze_tolist_list by lia. lia.
Qed.

Lemma getitem_int_last_context {A : Type} (l : list A) (nct : nat) :
  (1 <= List.length l)%nat -> (nct <= List.length l)%nat ->
  exists a, getitem_int l (Z.of_nat nct - 1) = Ok a.
Proof.
  intros Hne Hlen. unfold getitem_int.
  destruct l as [|d l]; [simpl in Hne; lia|].
  destruct (Z.leb_spec 0 (Z.of_nat nct - 1)).
  - eexists. apply (getitem_lt _ d). lia.
  - destruct (Z.leb_spec 0 (Z.of_nat (List.length (d :: l)) + (Z.of_nat nct - 1)));
      [|lia].
    eexists. apply (getitem_lt _ d). lia.
Qed.

Lemma filter_intents_total (last : string) (tags : list string) (n : nat) :
  (n <= List.length tags)%nat ->
  exists l, filter_intents last tags n = Ok l.
Proof.
  intros Hn. unfold filter_intents.
  assert (Hr : forall j, In j (range n) -> (j < List.length tags)%nat)
    by (intros j Hj; apply in_seq in Hj; lia).
  repeat match goal with
         | |- context [if ?b then _ else _] => destruct b
         end;
    try (rewrite index_filter_total by exact Hr); eauto.
Qed.

Lemma filter_sentiment_total (last : string) (tags : list string) (n : nat) :
  (n <= List.length tags)%nat ->
  exists l, filter_sentiment last tags n = Ok l.
Proof.
  intros Hn. unfold filter_sentiment.
  assert (Hr : forall j, In j (range n) -> (j < List.length tags)%nat)
    by (intros j Hj; apply in_seq in Hj; lia).
  rewrite index_filter_total by exact Hr. cbn [bind].
  repeat match goal with
         | |- context [if ?b then _ else _] => destruct b
         end;
    try (rewrite index_filter_total by exact Hr); eauto.
Qed.

Lemma filters_total (self : t) (rs ri : list (list string))
  (responses : list string) (i : nat) (gs gi : list string) :
  nth_error rs i = Some gs -> nth_error ri i = Some gi ->
  (1 <= List.length gs)%nat -> (1 <= List.length gi)%nat ->
  (num_context_turns self + List.length responses <= List.length gs)%nat ->
  (num_context_turns self + List.length responses <= List.length gi)%nat ->
  exists fi fs, filters self rs ri responses i = Ok (fi, fs).
Proof.
  intros Hgs Hgi Hs1 Hi1 Hs Hi. unfold filters.
  rewrite (proj2 (getitem_ok _ _ _) Hgi). cbn [bind].
  destruct (@getitem_int_last_context _ gi (num_context_turns self))
    as (last_i & ->); [lia | lia |]. cbn [bind].
  destruct (@filter_intents_total last_i
              (slice_from gi (num_context_turns self))
              (List.length responses)) as (fi & ->).
  { unfold slice_from. rewrite length_skipn. lia. }
  cbn [bind]. rewrite (proj2 (getitem_ok _ _ _) Hgs). cbn [bind].
  destruct (@getitem_int_last_context _ gs (num_context_turns self))
    as (last_s & ->); [lia | lia |]. cbn [bind].
  destruct (@filter_sentiment_total last_s
              (slice_from gs (num_context_turns self))
              (List.length responses)) as (fs & ->).
  { unfold slice_from. rewrite length_skipn. lia. }
  cbn [bind]. eauto.
Qed.

Lemma Forall2_nth_error {A B : Type} (P : A -> B -> Prop) (l : list A)
  (l' : list B) (i : nat) (x : A) :
  Forall2 P l l' -> nth_error l i = Some x ->
  exists y, nth_error l' i = Some y /\ P x y.
Proof.
  intros H. revert i. induction H as [|a b l l' Hab _ IH]; intros i Hi.
  - destruct i; discriminate.
  - destruct i as [|i]; simpl in *.
    + inversion Hi; subst. eauto.
    + now apply IH.
Qed.

Section WellFormed.

Variable set_iter : list nat -> list nat.
Hypothesis set_iter_order : set_order set_iter.

Variable self : t.
Variable top_responses_batch : list (list string).
Variable top_scores_batch : list (list R).
Variable sentiment_batch : list string.
Variable intents_batch : list string.
Variable random_sample : nat -> R.

Lemma select_total (responses : list string) (scores : list R) (i : nat)
  (fi fs : list nat) :
  positions_of (List.length responses) fi ->
  positions_of (List.length responses) fs ->
  nth_error top_scores_batch i = Some scores ->
  (List.length responses <= List.length scores)%nat ->
  exists candidates scores',
    select set_iter top_scores_batch responses i fi fs
      = Ok (candidates, scores') /\
    (List.length candidates <= List.length scores')%nat /\
    ((1 <= List.length responses)%nat -> (1 <= List.length candidates)%nat) /\
    (responses = [] -> candidates = []).
Proof.
  intros (_ & Hfi) (_ & Hfs) Hsc Hlen.
  assert (Hsc' : getitem top_scores_batch i = Ok scores)
    by now apply getitem_ok.
  assert (Hidx : forall j, In j (set_iter (intersection fi fs)) ->
                           (j < List.length responses)%nat)
    by (intros j Hj; apply (set_iter_intersection set_iter_order) in Hj;
        apply Hfi, Hj).
  unfold select.
  destruct (set_iter (intersection fi fs)) as [|j0 l] eqn:E;
    [destruct fs as [|s fs']; [destruct fi as [|f fi']|]|];
    cbn [List.length Nat.ltb Nat.leb Nat.eqb negb].
  - rewrite Hsc'. cbn [bind]. exists responses, scores.
    repeat split; auto.
  - destruct (gather responses scores (f :: fi') Hfi Hlen) as (-> & Hs).
    rewrite Hsc'. cbn [bind]. rewrite Hs. cbn [bind].
    do 2 eexists. split; [reflexivity|].
    rewrite !length_map. repeat split; simpl; try lia.
    intros ->. specialize (Hfi f (or_introl eq_refl)). simpl in Hfi. lia.
  - destruct (gather responses scores (s :: fs') Hfs Hlen) as (-> & Hs).
    rewrite Hsc'. cbn [bind]. rewrite Hs. cbn [bind].
    do 2 eexists. split; [reflexivity|].
    rewrite !length_map. repeat split; simpl; try lia.
    intros ->. specialize (Hfs s (or_introl eq_refl)). simpl in Hfs. lia.
  - destruct (gather responses scores (j0 :: l) Hidx Hlen) as (-> & Hs).
    rewrite Hsc'. cbn [bind]. rewrite Hs. cbn [bind].
    do 2 eexists. split; [reflexivity|].
    rewrite !length_map. repeat split; simpl; try lia.
    intros ->. specialize (Hidx j0 (or_introl eq_refl)). simpl in Hidx. lia.
Qed.

Lemma call_unfold :
  (1 <= List.length top_responses_batch)%nat ->
  (1 <= num_context_turns self
        + List.length (hd [] top_responses_batch))%nat ->
  let batch_size :=
    (num_context_turns self + List.length (hd [] top_responses_batch))%nat in
  let n_groups := (List.length sentiment_batch / batch_size)%nat in
  __call__ set_iter self top_responses_batch top_scores_batch sentiment_batch
       intents_batch random_sample
  = loop set_iter self top_responses_batch top_scores_batch random_sample
         (reshape sentiment_batch batch_size n_groups)
         (reshape intents_batch batch_size n_groups)
         (range (List.length top_responses_batch)) [] [].
Proof.
  unfold __call__. destruct top_responses_batch as [|first rest]; simpl;
    intros HB Hbs; [lia|].
  destruct (Nat.eqb_spec (num_context_turns self + List.length first) 0);
    [lia | reflexivity].
Qed.

Hypothesis Hwf :
  well_formed self top_responses_batch top_scores_batch sentiment_batch
              intents_batch.
Hypothesis Huniform : uniform random_sample.

Let batch_size : nat :=
  (num_context_turns self + List.length (hd [] top_responses_batch))%nat.
Let n_groups : nat := (List.length sentiment_batch / batch_size)%nat.
Let reshaped_sentiment := reshape sentiment_batch batch_size n_groups.
Let reshaped_intents := reshape intents_batch batch_size n_groups.

Lemma element_well_formed (i : nat) (responses : list string) :
  nth_error top_responses_batch i = Some responses ->
  (responses = [] ->
   element set_iter self top_responses_batch top_scores_batch random_sample
           reshaped_sentiment reshaped_intents i = Raise ValueError) /\
  ((1 <= List.length responses)%nat ->
   exists out,
     element set_iter self top_responses_batch top_scores_batch random_sample
             reshaped_sentiment reshaped_intents i = Ok out).
Proof.
  intros Hresp.
  destruct Hwf as (HB & Hbs & Htags & Hs & Hi & Hall).
  fold batch_size in Hbs, Htags, Hs, Hi.
  assert (HiB : (i < List.length top_responses_batch)%nat)
    by (apply nth_error_Some; congruence).
  destruct (@Forall2_nth_error _ _ _ _ _ i _ Hall Hresp)
    as (scores & Hsc & Hn0 & Hlen).
  assert (Hg : (i < n_groups)%nat).
  { unfold n_groups.
    apply Nat.lt_le_trans with (List.length top_responses_batch);
      [exact HiB|].
    apply Nat.div_le_lower_bound; [lia | nia]. }
  destruct (@reshape_nth sentiment_batch batch_size n_groups i)
    as (gs & Hgs & Lgs); [lia | exact Hg | nia | |].
  { intros H1. specialize (Htags H1). apply Forall_app in Htags. tauto. }
  destruct (@reshape_nth intents_batch batch_size n_groups i)
    as (gi & Hgi & Lgi); [lia | exact Hg | nia | |].
  { intros H1. specialize (Htags H1). apply Forall_app in Htags. tauto. }
  fold reshaped_sentiment in Hgs. fold reshaped_intents in Hgi.
  destruct (@filters_total self reshaped_sentiment reshaped_intents
              responses i gs gi Hgs Hgi) as (fi & fs & Hf);
    [unfold batch_size in *; lia ..|].
  destruct (filters_positions _ _ _ _ _ Hf) as (Pfi & Pfs).
  destruct (@select_total responses scores i fi fs Pfi Pfs Hsc Hlen)
    as (candidates & scores' & Hsel & Hcs & Hne & Hempty).
  unfold element. rewrite (proj2 (getitem_ok _ _ _) Hresp). cbn [bind].
  rewrite Hf. cbn [bind]. rewrite Hsel. cbn [bind]. split.
  - intros Hnil. rewrite (Hempty Hnil). apply sample_empty.
  - intros H1. apply sample_total; [now apply Hne | exact Hcs | apply Huniform].
Qed.

Lemma loop_total (ids : list nat) (acc_r : list string) (acc_p : list R) :
  (forall i, In i ids -> exists responses,
     nth_error top_responses_batch i = Some responses /\
     (1 <= List.length responses)%nat) ->
  exists out,
    loop set_iter self top_responses_batch top_scores_batch random_sample
         reshaped_sentiment reshaped_intents ids acc_r acc_p = Ok out.
Proof.
  revert acc_r acc_p. induction ids as [|i ids IH]; simpl; intros acc_r acc_p H.
  - eauto.
  - destruct (H i (or_introl eq_refl)) as (responses & Hresp & Hne).
    destruct (proj2 (@element_well_formed i responses Hresp) Hne)
      as ((r & s) & ->).
    cbn [bind]. apply IH. intros j Hj. apply H. now right.
Qed.

Lemma loop_raises (ids : list nat) (acc_r : list string) (acc_p : list R) :
  (forall i, In i ids -> (i < List.length top_responses_batch)%nat) ->
  (exists i, In i ids /\ nth_error top_responses_batch i = Some []) ->
  loop set_iter self top_responses_batch top_scores_batch random_sample
       reshaped_sentiment reshaped_intents ids acc_r acc_p = Raise ValueError.
Proof.
  revert acc_r acc_p.
  induction ids as [|i ids IH]; simpl; intros acc_r acc_p Hlt (j & Hj & Hnil);
    [destruct Hj|].
  destruct (nth_error top_responses_batch i) as [responses|] eqn:Hresp.
  2: { apply nth_error_None in Hresp.
       specialize (Hlt i (or_introl eq_refl)). lia. }
  destruct (@element_well_formed i responses Hresp) as (Hempty & Htotal).
  destruct responses as [|r responses].
  - now rewrite Hempty.
  - destruct Htotal as ((r' & s') & ->); [simpl; lia|]. cbn [bind].
    apply IH; [intros k Hk; apply Hlt; now right|].
    exists j. split; [|exact Hnil].
    destruct Hj as [<-|Hj]; [congruence | exact Hj].
Qed.

End WellFormed.

(** *** The call *)

(** C8.  On a batch of non-empty candidate lists, whatever the call
    returns is a pair of lists of the length of the batch, and for every
    batch element the returned response stands in that element's candidate
    list at a position where that element's score list holds the returned
    score.  The call does return when the input keeps to the contract of
    the specification ([well_formed]), [lambda_coeff] is positive (in
    floating point a zero would make the weights NaN) and the random
    source stays in the unit interval. *)
Theorem call_returns_candidate_and_score
  (set_iter : list nat -> list nat) (self : t)
  (top_responses_batch : list (list string))
  (top_scores_batch : list (list R))
  (sentiment_batch intents_batch : list string) (random_sample : nat -> R) :
  set_order set_iter ->
  Forall (fun responses : list string => (1 <= List.length responses)%nat)
         top_responses_batch ->
  (forall out,
     __call__ set_iter self top_responses_batch top_scores_batch sentiment_batch
          intents_batch random_sample = Ok out ->
     chosen_from top_responses_batch top_scores_batch out) /\
  (well_formed self top_responses_batch top_scores_batch sentiment_batch
               intents_batch ->
   0 < lambda_coeff self -> uniform random_sample ->
   exists out,
     __call__ set_iter self top_responses_batch top_scores_batch sentiment_batch
          intents_batch random_sample = Ok out /\
     chosen_from top_responses_batch top_scores_batch out).
Proof.
  intros Horder Hne. split; [intros out; apply call_ok|].
  intros Hwf _ Hu.
  assert (H : exists out,
             __call__ set_iter self top_responses_batch top_scores_batch
                  sentiment_batch intents_batch random_sample = Ok out).
  { rewrite call_unfold by (destruct Hwf as (? & ? & _); lia).
    apply (loop_total Horder Hwf Hu).
    intros i Hi. apply in_seq in Hi.
    destruct (nth_error top_responses_batch i) as [responses|] eqn:E.
    - exists responses. split; [reflexivity|].
      rewrite Forall_forall in Hne. apply Hne.
      eapply nth_error_In; eauto.
    - apply nth_error_None in E. lia. }
  destruct H as (out & H). exists out. split; [exact H|].
  eapply call_ok; eauto.
Qed.

(** C9.  A call in which some batch element has an empty candidate list
    never returns a result: the pool of that element is empty and the
    sampling step refuses it.  When the input otherwise keeps to the
    contract of the specification, so that the tag look-ups before the
    sampling step succeed, the exception is the sampler's [ValueError]. *)
Theorem call_raises_on_empty_candidates
  (set_iter : list nat -> list nat) (self : t)
  (top_responses_batch : list (list string))
  (top_scores_batch : list (list R))
  (sentiment_batch intents_batch : list string) (random_sample : nat -> R) :
  set_order set_iter ->
  In [] top_responses_batch ->
  (exists e,
     __call__ set_iter self top_responses_batch top_scores_batch sentiment_batch
          intents_batch random_sample = Raise e) /\
  (well_formed self top_responses_batch top_scores_batch sentiment_batch
               intents_batch ->
   0 < lambda_coeff self -> uniform random_sample ->
   __call__ set_iter self top_responses_batch top_scores_batch sentiment_batch
        intents_batch random_sample = Raise ValueError).
Proof.
  intros Horder Hin. split.
  - destruct (__call__ _ _ _ _ _ _ _) as [out|e] eqn:E; [|eauto].
    exfalso. apply call_ok in E. destruct E as (_ & _ & E).
    destruct (In_nth _ _ [] Hin) as (i & Hi & Hnil).
    destruct (E i Hi) as (p & Hp & _). rewrite Hnil in Hp.
    destruct p; discriminate.
  - intros Hwf _ Hu.
    rewrite call_unfold by (destruct Hwf as (? & ? & _); lia).
    apply (loop_raises Horder Hwf Hu).
    + intros i Hi. apply in_seq in Hi. lia.
    + destruct (In_nth_error _ _ Hin) as (i & Hi). exists i.
      split; [|exact Hi]. apply in_seq.
      assert (i < List.length top_responses_batch)%nat
        by (apply nth_error_Some; congruence).
      lia.
Qed.

Lemma identity_set_order : set_order (fun s => s).
Proof. intros s _. apply Permutation_refl. Qed.

Lemma select_follows_fallback_chain_witness :
  select (fun s => s) [[9 / 10; 8 / 10]] ["a"; "b"]%string 0
         [0%nat] [1%nat]
  = Ok (["b"]%string, [8 / 10]).
Proof.
  pose (self := {| num_context_turns := 2; lambda_coeff := 10 |}).
  pose (sentiment := [["neutral"; "positive"; "negative"; "positive"]]%string).
  pose (intents :=
          [["declarative"; "imperative";
            "declarative"; "interrogative"]]%string).
  assert (H0 : nth_error [["a"; "b"]%string] 0 = Some ["a"; "b"]%string)
    by reflexivity.
  assert (H1 : (1 <= List.length ["a"; "b"]%string)%nat) by (simpl; lia).
  assert (H2 : nth_error [[9 / 10; 8 / 10]] 0 = Some [9 / 10; 8 / 10])
    by reflexivity.
  assert (H3 : List.length ["a"; "b"]%string = List.length [9 / 10; 8 / 10])
    by reflexivity.
  assert (H4 : filters self sentiment intents ["a"; "b"]%string 0
               = Ok ([0%nat], [1%nat])) by reflexivity.
  exact (proj1 (@select_follows_fallback_chain (fun s => s)
                  identity_set_order self [["a"; "b"]%string]
                  [[9 / 10; 8 / 10]] (fun _ => 0) sentiment intents
                  ["a"; "b"]%string [9 / 10; 8 / 10] 0%nat
                  [0%nat] [1%nat] H0 H1 H2 H3 H4)).
Defined.

Lemma call_returns_candidate_and_score_witness :
  let self := {| num_context_turns := 2; lambda_coeff := 10 |} in
  let responses := [["hello"; "no"]]%string in
  let scores := [[9 / 10; 1 / 2]] in
  let sentiment := ["neutral"; "neutral"; "positive"; "negative"]%string in
  let intents :=
    ["declarative"; "interrogative"; "declarative"; "interrogative"]%string in
  exists out,
    __call__ (fun s => s) self responses scores sentiment intents (fun _ => 0)
      = Ok out /\
    chosen_from responses scores out.
Proof.
  intros self responses scores sentiment intents.
  assert (Hne : Forall (fun r : list string => (1 <= List.length r)%nat)
                       responses)
    by (repeat constructor).
  assert (Hwf : well_formed self responses scores sentiment intents).
  { unfold well_formed. simpl. repeat split; try lia.
    repeat constructor. }
  assert (Hl : 0 < lambda_coeff self) by (simpl; lra).
  assert (Hu : uniform (fun _ : nat => 0)) by (intros i; lra).
  exact (proj2 (@call_returns_candidate_and_score (fun s => s) self responses
                  scores sentiment intents (fun _ => 0)
                  identity_set_order Hne) Hwf Hl Hu).
Defined.

Lemma call_raises_on_empty_candidates_witness :
  let self := {| num_context_turns := 2; lambda_coeff := 10 |} in
  __call__ (fun s => s) self [[]] [[]] ["neutral"; "neutral"]%string
       ["declarative"; "declarative"]%string (fun _ => 0)
  = Raise ValueError.
Proof.
  intros self.
  assert (Hin : In [] [@nil string]) by (now left).
  assert (Hwf : well_formed self [[]] [[]] ["neutral"; "neutral"]%string
                            ["declarative"; "declarative"]%string).
  { unfold well_formed. simpl. repeat split; try lia.
    repeat constructor. }
  assert (Hl : 0 < lambda_coeff self) by (simpl; lra).
  assert (Hu : uniform (fun _ : nat => 0)) by (intros i; lra).
  exact (proj2 (@call_raises_on_empty_candidates (fun s => s) self [[]] [[]]
                  ["neutral"; "neutral"]%string
                  ["declarative"; "declarative"]%string (fun _ => 0)
                  identity_set_order Hin) Hwf Hl Hu).
Defined.

End ChitChatReRankerFacts.

(** ** The classifier *)

Module CosineSimilarityClassifierFacts.

Import CosineSimilarityClassifier.
Open Scope R_scope.

(** *** Which exceptions a step can raise *)

Lemma raises_only_ok {A : Type} (P : exn -> Prop) (a : A) :
  raises_only P (Ok a).
Proof. intros e H. discriminate. Qed.

Lemma raises_only_raise {A : Type} (P : exn -> Prop) (e : exn) :
  P e -> raises_only P (@Raise A e).
Proof. intros H e' He'. now inversion He'; subst. Qed.

Lemma raises_only_bind {A B : Type} (P : exn -> Prop) (m : result A)
  (k : A -> result B) :
  raises_only P m -> (forall a, raises_only P (k a)) ->
  raises_only P (bind m k).
Proof.
  intros Hm Hk e H. apply bind_raise in H.
  destruct H as [H | (a & _ & H)]; [now apply Hm | now apply (Hk a)].
Qed.

Lemma raises_only_traverse {A B : Type} (P : exn -> Prop)
  (f : A -> result B) (l : list A) :
  (forall x, raises_only P (f x)) -> raises_only P (traverse f l).
Proof.
  intros Hf e H. apply traverse_error in H.
  destruct H as (x & _ & H). now apply (Hf x).
Qed.

Lemma raises_only_getitem {A : Type} (P : exn -> Prop) (l : list A)
  (k : nat) :
  P IndexError -> raises_only P (getitem l k).
Proof. intros HP e H. apply getitem_error in H. now subst. Qed.

Lemma raises_only_attr {A : Type} (P : exn -> Prop) (a : option A) :
  P AttributeError -> raises_only P (attr a).
Proof.
  intros HP. destruct a; [apply raises_only_ok | now apply raises_only_raise].
Qed.

Ltac other_step :=
  first
    [ apply raises_only_ok
    | apply raises_only_raise; discriminate
    | apply raises_only_getitem; discriminate
    | apply raises_only_attr; discriminate
    | apply raises_only_bind; [|intros ?]
    | apply raises_only_traverse; intros ? ].

Ltac refute_unsupported H :=
  exfalso;
  match type of H with
  | ?m = Raise NotImplementedError =>
      cut (raises_only other m);
      [ let C := fresh in intros C; exact (C _ H eq_refl) | clear H ]
  end.

Lemma other_div_broadcast (a : list (list R)) (b : list R) :
  raises_only other (Np.div_broadcast a b).
Proof.
  unfold Np.div_broadcast.
  repeat match goal with
         | |- context [if ?c then _ else _] => destruct c
         end; other_step.
Qed.

Lemma other_dot_T (q x : list (list R)) : raises_only other (Np.dot_T q x).
Proof. unfold Np.dot_T. destruct (forallb _ x); other_step. Qed.

Lemma other_similarities (q x : list (list R)) :
  raises_only other (similarities q x).
Proof.
  unfold similarities. other_step; [apply other_dot_T|].
  other_step; [apply other_div_broadcast | other_step].
Qed.

Lemma other_np_array (l : list vector) : raises_only other (np_array l).
Proof. unfold np_array. destruct (_ && _); other_step. Qed.

Lemma other_np_vstack (xs : list vector) : raises_only other (np_vstack xs).
Proof.
  unfold np_vstack. destruct xs as [|x xs]; [other_step|].
  destruct (forallb _ _); [destruct (forallb _ _)|]; other_step.
Qed.

Lemma other_sparse_vstack (xs : list vector) :
  raises_only other (sparse_vstack xs).
Proof.
  unfold sparse_vstack. other_step.
  - other_step. destruct x; other_step.
  - destruct (forallb _ _); other_step.
Qed.

Lemma other_labels_scores (y y_labels : list string) (cos : ndarray) :
  raises_only other (labels_scores y y_labels cos).
Proof.
  unfold labels_scores. other_step; [|other_step].
  other_step. other_step; [|other_step]. other_step.
  unfold column. destruct cos; [other_step|].
  destruct (Nat.ltb _ _); other_step.
Qed.

Lemma other_after_cos (self : t) (cos : ndarray) :
  raises_only other
    (y <- attr (y_train self) ;;
     scores <- labels_scores y (Np.unique y) cos ;;
     Np.div_broadcast scores (Np.sum_axis1 scores)).
Proof.
  other_step; [other_step|].
  other_step; [apply other_labels_scores | apply other_div_broadcast].
Qed.

Lemma other_ranked (self : t) (scores : list (list R)) :
  raises_only other
    (y <- attr (y_train self) ;;
     rows <-
       traverse (fun row =>
                   let ids := ranking self row in
                   answer <- traverse (getitem (Np.unique y)) ids ;;
                   Ok (answer, map (fun id => Np.round (nth id row 0) 2) ids))
                scores ;;
     Ok (map fst rows, map snd rows)).
Proof.
  other_step; [other_step|]. other_step; [|other_step].
  other_step. other_step; [|other_step]. other_step. other_step.
Qed.

(** *** [fit] *)

Lemma fit_cases (self : t) (xs : list vector) (ys : list string) :
  (exists e, fit self xs ys = (self, Raise e)) \/
  (exists x,
     fit self xs ys
     = ({| top_n := top_n self;
           x_train_features := Some x;
           y_train := Some ys |}, Ok tt)).
Proof.
  unfold fit. destruct (negb (Nat.eqb (List.length xs) 0)); [|left; eauto].
  match goal with |- context [match ?m with Ok _ => _ | Raise _ => _ end] =>
    destruct m as [x|e] end; [right; exists x; reflexivity | left; eauto].
Qed.

Lemma fit_raise_state (self : t) (xs : list vector) (ys : list string)
  (e : exn) :
  snd (fit self xs ys) = Raise e -> fst (fit self xs ys) = self.
Proof.
  intros He. destruct (fit_cases self xs ys) as [(e' & H) | (x & H)];
    rewrite H in *; simpl in *; [reflexivity | discriminate].
Qed.

(** C10.  A [fit] that raises leaves the instance as it was: an empty
    sequence of vectors raises [ValueError] and a first vector that is
    neither dense nor sparse raises [NotImplementedError], both before
    either trained attribute is assigned, and so does every other
    failure of [fit].  The classifier then answers every query as it did
    before the call. *)
Theorem fit_failure_keeps_instance (self : t) (xs : list vector)
  (ys : list string) :
  (xs = [] -> fit self xs ys = (self, Raise ValueError)) /\
  (forall x rest, xs = x :: rest -> x = PyNone \/ x = Unsupported ->
     fit self xs ys = (self, Raise NotImplementedError)) /\
  (forall e, snd (fit self xs ys) = Raise e ->
     fst (fit self xs ys) = self /\
     forall q_vects, __call__ (fst (fit self xs ys)) q_vects = __call__ self q_vects).
Proof.
  split; [|split].
  - intros ->. reflexivity.
  - intros x rest -> [-> | ->]; reflexivity.
  - intros e He. pose proof (fit_raise_state _ _ _ He) as H.
    split; [exact H | intros q_vects; now rewrite H].
Qed.

Lemma fit_failure_keeps_instance_witness :
  let self := {| top_n := 1;
                 x_train_features := Some (NdArray [[1; 0]]);
                 y_train := Some ["A"%string] |} in
  fit self [] [] = (self, Raise ValueError) /\
  fit self [PyNone; Dense [1; 0]] ["A"; "B"]%string
    = (self, Raise NotImplementedError) /\
  fst (fit self [Dense [1; 0]; Dense [1]] ["A"; "B"]%string) = self.
Proof.
  intros self.
  pose proof (fit_failure_keeps_instance self [] []) as (H1 & _ & _).
  pose proof (fit_failure_keeps_instance self [PyNone; Dense [1; 0]]
                ["A"; "B"]%string) as (_ & H2 & _).
  pose proof (fit_failure_keeps_instance self [Dense [1; 0]; Dense [1]]
                ["A"; "B"]%string) as (_ & _ & H3).
  split; [exact (H1 eq_refl)|].
  split; [exact (H2 PyNone [Dense [1; 0]] eq_refl (or_introl eq_refl))|].
  exact (proj1 (H3 ValueError eq_refl)).
Defined.

(** *** The unsupported-type error *)

(** C7, as the code has it.  [fit] raises the unsupported-type error
    exactly when the sequence of vectors is not empty and its first
    vector is neither dense nor sparse, and then stores nothing;
    [__call__] raises it exactly when the batch is a list whose first
    item is neither a dense vector, a sparse row nor [None].  The items
    after the first are not inspected. *)
Theorem unsupported_type_error_iff_first_item (self : t)
  (xs : list vector) (ys : list string) (q_vects : batch) :
  (snd (fit self xs ys) = Raise NotImplementedError <->
   exists x rest, xs = x :: rest /\ (x = PyNone \/ x = Unsupported)) /\
  (snd (fit self xs ys) = Raise NotImplementedError ->
   fst (fit self xs ys) = self) /\
  (__call__ self q_vects = Raise NotImplementedError <->
   exists rest, q_vects = PyList (Unsupported :: rest)).
Proof.
  split; [|split].
  - split.
    + destruct xs as [|x rest]; [discriminate|].
      intros H. exists x, rest. split; [reflexivity|].
      destruct x; auto; exfalso; revert H; unfold fit;
        cbn [List.length Nat.eqb negb getitem nth_error bind].
      * destruct (np_vstack _) as [f|e] eqn:E; [discriminate|].
        simpl. intros H. inversion H; subst.
        exact (other_np_vstack _ E eq_refl).
      * destruct (sparse_vstack _) as [f|e] eqn:E; [discriminate|].
        simpl. intros H. inversion H; subst.
        exact (other_sparse_vstack _ E eq_refl).
    + intros (x & rest & -> & [-> | ->]); reflexivity.
  - apply fit_raise_state.
  - split.
    + unfold __call__, normalized. intros H.
      apply bind_raise in H. destruct H as [H | (scores & _ & H)].
      2: { exfalso. exact (other_ranked _ _ H eq_refl). }
      apply bind_raise in H. destruct H as [H | (cos & _ & H)].
      2: { exfalso. exact (other_after_cos _ _ H eq_refl). }
      unfold cos_similarities in H. destruct q_vects as [q | l].
      * refute_unsupported H.
        apply raises_only_bind; [other_step | intros _].
        apply raises_only_bind; [other_step | intros x].
        destruct x; first [apply other_similarities | other_step].
      * destruct l as [|first rest]; [discriminate|].
        cbn [getitem nth_error bind] in H.
        destruct first; [refute_unsupported H .. | eauto].
        -- apply raises_only_bind; [apply other_np_array | intros q].
           apply raises_only_bind; [other_step | intros x].
           destruct x; first [apply other_similarities | other_step].
        -- other_step.
        -- apply raises_only_bind; [other_step | intros x].
           apply raises_only_bind; [|intros n; other_step].
           destruct x; other_step.
    + intros (rest & ->). reflexivity.
Qed.

Lemma unsupported_type_error_iff_first_item_witness :
  let self := {| top_n := 1; x_train_features := None; y_train := None |} in
  snd (fit self [Unsupported; Dense [1; 0]] ["A"; "B"]%string)
    = Raise NotImplementedError /\
  fst (fit self [Unsupported; Dense [1; 0]] ["A"; "B"]%string) = self /\
  __call__ self (PyList [Unsupported; Dense [1; 0]]) = Raise NotImplementedError.
Proof.
  intros self.
  pose proof (unsupported_type_error_iff_first_item self
                [Unsupported; Dense [1; 0]] ["A"; "B"]%string
                (PyList [Unsupported; Dense [1; 0]])) as (H1 & H2 & H3).
  assert (H : snd (fit self [Unsupported; Dense [1; 0]] ["A"; "B"]%string)
              = Raise NotImplementedError).
  { apply H1. exists Unsupported, [Dense [1; 0]]. split; auto. }
  split; [exact H|]. split; [exact (H2 H)|].
  apply H3. now exists [Dense [1; 0]].
Defined.

(** C7, counterexample.  The mixed batches the claim speaks of, on the
    code: a dense vector
    followed by a sparse row of another width stops [fit] inside
    [np.vstack] with [ValueError], not with the unsupported-type error;
    when both have width 1 [fit] returns and stores the stack and the
    labels; and [__call__] on a list of a dense vector and a sparse row
    stops in [np.array] with [ValueError]. *)
Lemma mixed_batch_counterexample :
  let self := {| top_n := 1; x_train_features := None; y_train := None |} in
  let trained := {| top_n := 1;
                    x_train_features := Some (NdArray [[1; 0]]);
                    y_train := Some ["A"%string] |} in
  fit self [Dense [1; 2]; Sparse [3; 4]] ["A"; "B"]%string
    = (self, Raise ValueError) /\
  fit self [Dense [1]; Sparse [2]] ["A"; "B"]%string
    = ({| top_n := 1;
          x_train_features := Some (ObjectArray 2);
          y_train := Some ["A"; "B"]%string |}, Ok tt) /\
  __call__ trained (PyList [Dense [1; 2]; Sparse [3; 4]]) = Raise ValueError.
Proof.
  intros self trained. repeat split.
Qed.

(** *** [np.unique] and the positions of a label *)

Lemma insert_unique_In (s x : string) (l : list string) :
  In x (Np.insert_unique s l) <-> x = s \/ In x l.
Proof.
  induction l as [|y l IH]; simpl.
  - intuition congruence.
  - destruct (String.compare s y) eqn:E; simpl.
    + apply String.compare_eq_iff in E. subst. intuition congruence.
    + intuition congruence.
    + rewrite IH. intuition congruence.
Qed.

Lemma unique_In (x : string) (l : list string) :
  In x (Np.unique l) <-> In x l.
Proof.
  unfold Np.unique. induction l as [|y l IH]; simpl; [tauto|].
  rewrite insert_unique_In, IH. intuition congruence.
Qed.

Lemma enumerate_In (y : list string) (a k : nat) (v : string) :
  In (k, v) (combine (seq a (List.length y)) y) <->
  (a <= k)%nat /\ nth_error y (k - a) = Some v.
Proof.
  revert a. induction y as [|x y IH]; intros a; simpl.
  - split; [intros [] | intros (_ & H)]. destruct (k - a)%nat; discriminate.
  - rewrite IH. split.
    + intros [H | (Hle & H)].
      * inversion H; subst. rewrite Nat.sub_diag. split; [lia | reflexivity].
      * split; [lia|]. replace (k - a)%nat with (S (k - S a)) by lia.
        exact H.
    + intros (Hle & H). destruct (Nat.eq_dec a k) as [->|Hne].
      * rewrite Nat.sub_diag in H. inversion H. now left.
      * right. split; [lia|].
        replace (k - a)%nat with (S (k - S a)) in H by lia. exact H.
Qed.

Lemma positions_spec (label : string) (y : list string) (k : nat) :
  In k (positions label y) <-> nth_error y k = Some label.
Proof.
  unfold positions, range. rewrite in_map_iff. split.
  - intros ((k' & v) & Hk & H). simpl in Hk. subst k'.
    apply filter_In in H. destruct H as (H & E). simpl in E.
    apply String.eqb_eq in E. subst v.
    apply enumerate_In in H. destruct H as (_ & H).
    now rewrite Nat.sub_0_r in H.
  - intros H. exists (k, label). split; [reflexivity|].
    apply filter_In. split; [|simpl; apply String.eqb_refl].
    apply enumerate_In. rewrite Nat.sub_0_r. split; [lia | exact H].
Qed.

(** *** A query that is [None] *)

Lemma labels_scores_one_dimensional (y y_labels : list string) (a : list R) :
  (1 <= List.length y_labels)%nat ->
  (forall label, In label y_labels -> In label y) ->
  labels_scores y y_labels (Arr1 a) = Raise IndexError.
Proof.
  intros Hne Hin. destruct y_labels as [|label rest]; [simpl in Hne; lia|].
  destruct (In_nth_error _ _ (Hin label (or_introl eq_refl))) as (k & Hk).
  apply positions_spec in Hk.
  unfold labels_scores. cbn [traverse].
  destruct (positions label y) as [|k0 ks]; [destruct Hk | reflexivity].
Qed.

(** C6, on the code.  On a fitted classifier with at least one training
    label, a batch whose first query is [None] never gets a result: line
    72 builds a one-dimensional array of zeros, and line 80 indexes it
    with two indices, which raises [IndexError] (when the training
    vectors are sparse, [len] on line 72 already raises [TypeError]). *)
Theorem none_query_raises (self : t) (x : features) (ys : list string)
  (rest : list vector) :
  x_train_features self = Some x ->
  y_train self = Some ys ->
  (1 <= List.length ys)%nat ->
  __call__ self (PyList (PyNone :: rest))
  = Raise (match x with CsrFeatures _ => TypeError | _ => IndexError end).
Proof.
  intros Hx Hy Hne.
  unfold __call__, normalized, cos_similarities.
  cbn [getitem nth_error bind]. rewrite Hx. cbn [attr bind].
  assert (Hl : forall n,
             labels_scores ys (Np.unique ys) (Arr1 (repeat 0 n))
             = Raise IndexError).
  { intros n. apply labels_scores_one_dimensional.
    - destruct ys as [|y0 ys']; [simpl in Hne; lia|].
      destruct (Np.unique (y0 :: ys')) as [|u us] eqn:E; [|simpl; lia].
      assert (H : In y0 (Np.unique (y0 :: ys')))
        by (apply unique_In; now left).
      rewrite E in H. destruct H.
    - intros label. apply unique_In. }
  destruct x as [rows | rows | n]; cbn [len_features bind];
    try reflexivity; rewrite Hy; cbn [attr bind]; now rewrite Hl.
Qed.

Lemma none_query_raises_witness :
  let self := {| top_n := 1;
                 x_train_features := Some (NdArray [[1; 0]]);
                 y_train := Some ["A"%string] |} in
  fit {| top_n := 1; x_train_features := None; y_train := None |}
      [Dense [1; 0]] ["A"%string] = (self, Ok tt) /\
  __call__ self (PyList [PyNone]) = Raise IndexError.
Proof.
  intros self. split; [reflexivity|].
  assert (H : (1 <= List.length ["A"%string])%nat) by (simpl; lia).
  exact (@none_query_raises self (NdArray [[1; 0]]) ["A"%string] []
           eq_refl eq_refl H).
Defined.

(** *** Concrete batches *)

(** Evaluation of the model on given numbers: lists, strings and the
    control flow are computed, the arithmetic on reals is left to
    [lra]. *)
Ltac np_eval :=
  cbv -[Rplus Rmult Rdiv Rinv sqrt Rminus Ropp IZR Rmax Rlt_dec Rle_dec
        INR Rabs exp Zfloor Z.even Z.add].

Ltac entries :=
  repeat match goal with
         | |- Ok _ = Ok _ => apply f_equal
         | |- Arr2 _ = Arr2 _ => apply f_equal
         | |- (_ :: _) = (_ :: _) => apply f_equal2
         | |- (_, _) = (_, _) => apply f_equal2
         | |- [] = [] => reflexivity
         end.

Lemma sqrt_of_square (x y : R) : 0 <= y -> y * y = x -> sqrt x = y.
Proof. intros Hy <-. now apply sqrt_square. Qed.

(** C2, on the code.  One training vector [(1, 0)] and the batch of the
    two queries [(3, 0)] and [(0, 4)]: the similarity computed for the
    first query is [3/5], its inner product over the norm 5 of the whole
    batch, where the cosine of the specification is 1; the same query sent
    alone gets 1.  The sparse path does the same. *)
Theorem similarity_uses_batch_norm :
  let dense := {| top_n := 1;
                  x_train_features := Some (NdArray [[1; 0]]);
                  y_train := Some ["A"%string] |} in
  let sparse := {| top_n := 1;
                   x_train_features := Some (CsrFeatures [[1; 0]]);
                   y_train := Some ["A"%string] |} in
  cos_similarities dense (PyList [Dense [3; 0]; Dense [0; 4]])
    = Ok (Arr2 [[3 / 5]; [0]]) /\
  cos_similarities sparse (CsrMatrix [[3; 0]; [0; 4]])
    = Ok (Arr2 [[3 / 5]; [0]]) /\
  cosine [3; 0] [1; 0] = 1 /\
  cos_similarities dense (PyList [Dense [3; 0]]) = Ok (Arr2 [[1]]).
Proof.
  intros dense sparse.
  assert (H25 : sqrt (3 * 3 + (0 * 0 + (0 * 0 + (4 * 4 + 0)))) = 5)
    by (apply sqrt_of_square; lra).
  assert (H9 : sqrt (3 * 3 + (0 * 0 + 0)) = 3)
    by (apply sqrt_of_square; lra).
  assert (H1 : sqrt (1 * 1 + (0 * 0 + 0)) = 1)
    by (apply sqrt_of_square; lra).
  repeat split; np_eval; rewrite ?H25, ?H9, ?H1; entries; lra.
Qed.

(** C1, on the code.  Training vectors [(1, 0)] labelled A and [(0, 1)]
    labelled B.  The query [(2, 2)] sent alone gets the scores
    [1/2, 1/2], which sum to 1.  Sent second in a batch after [(1, 0)] it
    gets [2, 1/2]: line 83 divides column [j] by the row sum of query
    [j].  With three queries and two labels the division cannot be
    broadcast and the call raises [ValueError]. *)
Theorem normalisation_crosses_queries :
  let self := {| top_n := 1;
                 x_train_features := Some (NdArray [[1; 0]; [0; 1]]);
                 y_train := Some ["A"; "B"]%string |} in
  normalized self (PyList [Dense [2; 2]]) = Ok [[1 / 2; 1 / 2]] /\
  normalized self (PyList [Dense [1; 0]; Dense [2; 2]])
    = Ok [[1; 0]; [2; 1 / 2]] /\
  normalized self (PyList [Dense [1; 0]; Dense [2; 2]; Dense [0; 1]])
    = Raise ValueError.
Proof.
  intros self.
  assert (H9 : sqrt (1 * 1 + (0 * 0 + (2 * 2 + (2 * 2 + 0)))) = 3)
    by (apply sqrt_of_square; lra).
  assert (H1 : sqrt (1 * 1 + (0 * 0 + 0)) = 1)
    by (apply sqrt_of_square; lra).
  assert (H1' : sqrt (0 * 0 + (1 * 1 + 0)) = 1)
    by (apply sqrt_of_square; lra).
  assert (H8 : 0 < sqrt (2 * 2 + (2 * 2 + 0)))
    by (apply sqrt_lt_R0; lra).
  split; [|split].
  - np_eval. rewrite H1, H1'. entries; field; lra.
  - np_eval. rewrite H9, H1, H1'. entries; lra.
  - reflexivity.
Qed.

(** *** One query at a time *)

Lemma combine_map_map {A B C : Type} (f : A -> B) (g : A -> C) (l : list A) :
  combine (map f l) (map g l) = map (fun a => (f a, g a)) l.
Proof. induction l as [|a l IH]; simpl; [reflexivity | now rewrite IH]. Qed.

(** What lines 68-70 compute for a batch [qs] of dense queries: the
    inner product over the norm of the whole batch times the norm of the
    training vector. *)
Lemma similarities_dense (qs x : list (list R)) :
  (1 <= List.length qs)%nat ->
  Forall (fun row => List.length row = Np.ncols qs) x ->
  similarities qs x
  = Ok (Arr2 (map (fun q =>
                     map (fun t => Np.dot q t / (Np.norm_all qs * Np.norm t)) x)
                  qs)).
Proof.
  intros Hqs Hx. unfold similarities, Np.dot_T.
  assert (Hf : forallb (fun row => Nat.eqb (List.length row) (Np.ncols qs)) x
               = true).
  { apply forallb_forall. rewrite Forall_forall in Hx.
    intros row Hrow. apply Nat.eqb_eq. now apply Hx. }
  rewrite Hf. cbn [bind]. unfold Np.div_broadcast, Np.norm_axis1.
  destruct qs as [|q qs]; [simpl in Hqs; lia|].
  assert (Hn : Nat.eqb
            (Np.ncols (map (fun qi => map (fun xk => Np.dot qi xk) x) (q :: qs)))
            (List.length
               (map (fun n => Np.norm_all (q :: qs) * n) (map Np.norm x)))
          = true).
  { apply Nat.eqb_eq. unfold Np.ncols. simpl. now rewrite !length_map. }
  rewrite Hn. cbn [bind]. do 2 f_equal. rewrite map_map.
  apply map_ext. intros qi. rewrite (map_map Np.norm).
  rewrite combine_map_map, map_map. reflexivity.
Qed.

Lemma np_array_dense (qs : list (list R)) :
  Forall (fun q => List.length q = Np.ncols qs) qs ->
  np_array (map Dense qs) = Ok qs.
Proof.
  intros Hq. unfold np_array.
  assert (H1 : forallb is_dense (map Dense qs) = true).
  { apply forallb_forall. intros v Hv. apply in_map_iff in Hv.
    now destruct Hv as (q & <- & _). }
  assert (H2 : forallb
                 (fun v => Nat.eqb (width_2d v)
                                   (width_2d (hd PyNone (map Dense qs))))
                 (map Dense qs) = true).
  { apply forallb_forall. intros v Hv. apply in_map_iff in Hv.
    destruct Hv as (q & <- & Hin). apply Nat.eqb_eq.
    rewrite Forall_forall in Hq. cbn [width_2d]. rewrite (Hq q Hin).
    destruct qs as [|q0 qs']; [destruct Hin | reflexivity]. }
  rewrite H1, H2. cbn [andb]. rewrite map_map. cbn [dense_row].
  now rewrite map_id.
Qed.







(** *** The ranking of one row *)

Lemma StronglySorted_nth {A : Type} (R : A -> A -> Prop) (l : list A)
  (d : A) :
  StronglySorted R l ->
  forall a b, (a < b < List.length l)%nat -> R (nth a l d) (nth b l d).
Proof.
  induction 1 as [|x l Hl IH Hx]; intros a b Hab; [simpl in Hab; lia|].
  destruct b as [|b]; [lia|]. destruct a as [|a]; simpl in *.
  - rewrite Forall_forall in Hx. apply Hx, nth_In. lia.
  - apply IH. lia.
Qed.

Section Argsort.

Variable row : list R.

(** The order [np.argsort] leaves the positions in: a smaller score
    first, and of two equal scores the earlier position first. *)
Let below (i j : nat) : Prop := above row j i.

Lemma argsort_insert_In (i y : nat) (sorted : list nat) :
  In y (Np.argsort_insert row i sorted) <-> y = i \/ In y sorted.
Proof.
  induction sorted as [|j sorted IH]; simpl; [intuition congruence|].
  destruct (Np.Rltb _ _); simpl; [|rewrite IH]; intuition congruence.
Qed.

Lemma argsort_insert_length (i : nat) (sorted : list nat) :
  List.length (Np.argsort_insert row i sorted) = S (List.length sorted).
Proof.
  induction sorted as [|j sorted IH]; simpl; [reflexivity|].
  destruct (Np.Rltb _ _); simpl; [reflexivity | now rewrite IH].
Qed.

Lemma argsort_insert_sorted (i : nat) (sorted : list nat) :
  StronglySorted below sorted ->
  (forall j, In j sorted -> (j < i)%nat) ->
  StronglySorted below (Np.argsort_insert row i sorted).
Proof.
  induction sorted as [|j sorted IH]; simpl; intros Hs Hlt.
  - constructor; constructor.
  - apply StronglySorted_inv in Hs. destruct Hs as (Hs & Hj).
    rewrite Forall_forall in Hj.
    destruct (Np.Rltb _ _) eqn:E.
    + apply NpFacts.Rltb_true in E.
      constructor; [constructor; [exact Hs | now apply Forall_forall]|].
      apply Forall_forall. intros x [<- | Hx]; [now left|].
      left. destruct (Hj x Hx) as [H | (H & _)]; lra.
    + apply NpFacts.Rltb_false in E.
      constructor; [apply IH; [exact Hs | intros x Hx; apply Hlt; now right]|].
      apply Forall_forall. intros x Hx. apply argsort_insert_In in Hx.
      destruct Hx as [-> | Hx]; [|now apply Hj].
      destruct E as [E | E]; [now left | right].
      split; [now symmetry | apply Hlt; now left].
Qed.

Lemma argsort_fold (n a : nat) (acc : list nat) :
  StronglySorted below acc ->
  (forall y, In y acc <-> (y < a)%nat) ->
  List.length acc = a ->
  let l := fold_left (fun sorted i => Np.argsort_insert row i sorted)
                     (seq a n) acc in
  StronglySorted below l /\
  (forall y, In y l <-> (y < a + n)%nat) /\
  List.length l = (a + n)%nat.
Proof.
  revert a acc. induction n as [|n IH]; intros a acc Hs Hin Hlen; simpl.
  - rewrite Nat.add_0_r. auto.
  - destruct (IH (S a) (Np.argsort_insert row a acc)) as (H1 & H2 & H3).
    + apply argsort_insert_sorted; [exact Hs | intros j Hj; now apply Hin].
    + intros y. rewrite argsort_insert_In, Hin. lia.
    + rewrite argsort_insert_length. lia.
    + repeat split.
      * exact H1.
      * intros Hy. apply H2 in Hy. lia.
      * intros Hy. apply H2. lia.
      * rewrite H3. lia.
Qed.

Lemma argsort_spec :
  StronglySorted below (Np.argsort row) /\
  (forall y, In y (Np.argsort row) <-> (y < List.length row)%nat) /\
  List.length (Np.argsort row) = List.length row.
Proof.
  unfold Np.argsort, range.
  apply (@argsort_fold (List.length row) 0%nat []); simpl;
    try constructor; intros; lia.
Qed.

Lemma ranking_spec (self : t) :
  (1 <= top_n self)%nat ->
  let ids := ranking self row in
  List.length ids = Nat.min (top_n self) (List.length row) /\
  (forall a b, (a < b < List.length ids)%nat ->
     above row (nth a ids 0%nat) (nth b ids 0%nat)) /\
  (forall i j, In i ids -> (j < List.length row)%nat -> ~ In j ids ->
     above row i j).
Proof.
  intros Htop ids. destruct argsort_spec as (Hs & Hin & Hlen).
  unfold ids, ranking, slice_last.
  destruct (top_n self) as [|m] eqn:Em; [lia|].
  set (n := List.length row) in *. set (sorted := Np.argsort row) in *.
  rewrite Hlen. set (k := (n - S m)%nat).
  assert (Hl : List.length (skipn k sorted) = Nat.min (S m) n)
    by (rewrite length_skipn, Hlen; unfold k; lia).
  split; [now rewrite length_rev|]. split.
  - rewrite length_rev, Hl. intros a b Hab.
    rewrite !rev_nth by lia. rewrite !nth_skipn, Hl.
    apply (@StronglySorted_nth _ below sorted 0%nat Hs). rewrite Hlen.
    unfold k. lia.
  - intros i j Hi Hj Hnot. rewrite <- in_rev in Hi, Hnot.
    apply (In_nth _ _ 0%nat) in Hi. destruct Hi as (a & Ha & <-).
    rewrite nth_skipn. rewrite Hl in Ha.
    apply Hin in Hj. apply (In_nth _ _ 0%nat) in Hj.
    destruct Hj as (pj & Hpj & <-). rewrite Hlen in Hpj.
    assert (Hlt : (pj < k)%nat).
    { destruct (Nat.lt_ge_cases pj k) as [H | H]; [exact H|].
      exfalso. apply Hnot.
      replace pj with (k + (pj - k))%nat by lia.
      rewrite <- nth_skipn. apply nth_In. rewrite Hl. unfold k in *. lia. }
    apply (@StronglySorted_nth _ below sorted 0%nat Hs). rewrite Hlen.
    unfold k in *. lia.
Qed.

End Argsort.

(** *** The returned lists *)





Lemma round_half : Np.round (1 / 2) 2 = 1 / 2.
Proof.
  unfold Np.round, Np.rint. simpl pow.
  assert (Hf : Zfloor (1 / 2 * (10 * (10 * 1))) = 50%Z)
    by (apply Zfloor_eq; lra).
  rewrite Hf.
  assert (Hlt : Np.Rltb (1 / 2 * (10 * (10 * 1)) - 50) (1 / 2) = true)
    by (apply NpFacts.Rltb_true; lra).
  rewrite Hlt. lra.
Qed.

Lemma tie_normalized (n : nat) :
  normalized {| top_n := n;
                x_train_features := Some (NdArray [[1; 0]; [0; 1]]);
                y_train := Some ["A"; "B"]%string |}
             (PyList [Dense [1; 1]])
  = Ok [[1 / 2; 1 / 2]].
Proof.
  assert (H1 : sqrt (1 * 1 + (0 * 0 + 0)) = 1)
    by (apply sqrt_of_square; lra).
  assert (H1' : sqrt (0 * 0 + (1 * 1 + 0)) = 1)
    by (apply sqrt_of_square; lra).
  assert (H2 : 0 < sqrt (1 * 1 + (1 * 1 + 0)))
    by (apply sqrt_lt_R0; lra).
  np_eval. rewrite H1, H1'. entries; field; lra.
Qed.

Lemma tie_argsort : Np.argsort [1 / 2; 1 / 2] = [0; 1]%nat.
Proof.
  unfold Np.argsort, range. simpl.
  assert (H : Np.Rltb (1 / 2) (1 / 2) = false)
    by (apply NpFacts.Rltb_false; lra).
  now rewrite H.
Qed.

Lemma tie_call :
  __call__ {| top_n := 2;
          x_train_features := Some (NdArray [[1; 0]; [0; 1]]);
          y_train := Some ["A"; "B"]%string |}
       (PyList [Dense [1; 1]])
  = Ok ([["B"; "A"]%string], [[1 / 2; 1 / 2]]).
Proof.
  unfold __call__. rewrite tie_normalized.
  cbn [bind attr y_train traverse]. unfold ranking. rewrite tie_argsort.
  cbn [top_n slice_last List.length Nat.sub skipn rev app map nth].
  rewrite round_half. reflexivity.
Qed.


Lemma tie_answers (n : nat) :
  (1 <= n)%nat ->
  answers_and_scores {| top_n := n;
                        x_train_features := Some (NdArray [[1; 0]; [0; 1]]);
                        y_train := Some ["A"; "B"]%string |}
                     ["A"; "B"]%string [[1 / 2; 1 / 2]]
  = Ok ([firstn n ["B"; "A"]%string], [firstn n [1 / 2; 1 / 2]]).
Proof.
  intros Hn. unfold answers_and_scores.
  cbn [traverse]. unfold ranking. rewrite tie_argsort.
  destruct n as [|[|n]]; [lia | |];
    cbn [top_n slice_last List.length Nat.sub skipn rev app map nth
         traverse getitem nth_error bind fst snd firstn];
    rewrite ?round_half, ?firstn_nil; reflexivity.
Qed.


End CosineSimilarityClassifierFacts.

(* ================================================================== *)
(** * Part III: further properties of the two components *)
(* ================================================================== *)

From Stdlib Require Import OrdersEx RelationClasses.

(** ** The classifier: errors and edge cases *)

Module CosineSimilarityClassifierEdges.

Import CosineSimilarityClassifier CosineSimilarityClassifierFacts.
Open Scope R_scope.

Lemma forallb_over_map {A B : Type} (f : B -> bool) (g : A -> B)
  (l : list A) :
  forallb f (map g l) = forallb (fun a => f (g a)) l.
Proof. induction l as [|a l IH]; simpl; [reflexivity | now rewrite IH]. Qed.

Lemma forallb_map_dense (rows : list (list R)) :
  forallb is_dense (map Dense rows) = true.
Proof.
  apply forallb_forall. intros v Hv. apply in_map_iff in Hv.
  now destruct Hv as (q & <- & _).
Qed.

(** What lines 67-70 leave in [cos_similarities] for a batch of dense
    queries on dense training vectors, whether or not the product of
    line 70 can be formed. *)
Lemma cos_similarities_dense (self : t) (qs x : list (list R)) :
  x_train_features self = Some (NdArray x) ->
  (1 <= List.length qs)%nat ->
  Forall (fun q => List.length q = Np.ncols qs) qs ->
  cos_similarities self (PyList (map Dense qs)) = similarities qs x.
Proof.
  intros Hx Hne Hq. unfold cos_similarities.
  assert (Hfirst : exists q0, getitem (map Dense qs) 0 = Ok (Dense q0)).
  { destruct qs as [|q0 qs']; [simpl in Hne; lia | now exists q0]. }
  destruct Hfirst as (q0 & ->). cbn [bind].
  rewrite (np_array_dense Hq). cbn [bind]. rewrite Hx. reflexivity.
Qed.

Lemma cos_similarities_sparse (self : t) (qs x : list (list R)) :
  x_train_features self = Some (CsrFeatures x) ->
  (1 <= List.length qs)%nat ->
  cos_similarities self (CsrMatrix qs) = similarities qs x.
Proof.
  intros Hx Hne. unfold cos_similarities.
  destruct qs as [|q0 qs']; [simpl in Hne; lia|].
  cbn [getitem nth_error bind]. rewrite Hx. reflexivity.
Qed.

Lemma call_raise_cos (self : t) (q_vects : batch) (e : exn) :
  cos_similarities self q_vects = Raise e -> __call__ self q_vects = Raise e.
Proof.
  intros H. unfold __call__, normalized. now rewrite H.
Qed.

(** X3.  An instance whose training vectors are unset (as [__init__]
    leaves them in train mode, before any [fit] or [load]) answers no
    query: every call raises.  On a sparse matrix with a row, on a list of
    dense vectors of one length, and on a list that starts with [None],
    the exception is the [AttributeError] of the missing attribute. *)
Theorem unfitted_instance_raises (self : t) (q_vects : batch) :
  x_train_features self = None ->
  (exists e, __call__ self q_vects = Raise e) /\
  (forall qs, (1 <= List.length qs)%nat ->
     q_vects = CsrMatrix qs \/
     (q_vects = PyList (map Dense qs) /\
      Forall (fun q => List.length q = Np.ncols qs) qs) ->
     __call__ self q_vects = Raise AttributeError) /\
  (forall rest, q_vects = PyList (PyNone :: rest) ->
     __call__ self q_vects = Raise AttributeError).
Proof.
  intros Hx. split; [|split].
  - assert (H : exists e, cos_similarities self q_vects = Raise e).
    { unfold cos_similarities. rewrite Hx.
      destruct q_vects as [q | l].
      - destruct (getitem q 0); cbn [bind attr]; eauto.
      - destruct l as [|first rest]; [cbn; eauto|].
        cbn [getitem nth_error bind].
        destruct first; cbn [bind attr]; eauto.
        destruct (np_array _); cbn [bind]; eauto. }
    destruct H as (e & H). exists e. now apply call_raise_cos.
  - intros qs Hne [-> | (-> & Hq)]; apply call_raise_cos.
    + unfold cos_similarities. rewrite Hx.
      destruct qs as [|q0 qs']; [simpl in Hne; lia | reflexivity].
    + unfold cos_similarities.
      assert (Hfirst : exists q0, getitem (map Dense qs) 0 = Ok (Dense q0)).
      { destruct qs as [|q0 qs']; [simpl in Hne; lia | now exists q0]. }
      destruct Hfirst as (q0 & ->). cbn [bind].
      rewrite (np_array_dense Hq). cbn [bind]. now rewrite Hx.
  - intros rest ->. apply call_raise_cos.
    unfold cos_similarities. now rewrite Hx.
Qed.

Lemma unfitted_instance_raises_witness :
  __call__ {| top_n := 1; x_train_features := None; y_train := None |}
           (PyList [Dense [1; 0]])
  = Raise AttributeError.
Proof.
  pose (self := {| top_n := 1; x_train_features := None; y_train := None |}).
  assert (Hne : (1 <= List.length [[1; 0]])%nat) by (simpl; lia).
  assert (Hq : Forall (fun q : list R => List.length q = Np.ncols [[1; 0]])
                      [[1; 0]]) by (repeat constructor).
  exact (proj1 (proj2 (@unfitted_instance_raises self
                         (PyList [Dense [1; 0]]) eq_refl))
               [[1; 0]] Hne (or_intror (conj eq_refl Hq))).
Defined.

Lemma forallb_false_Exists {A : Type} (f : A -> bool) (l : list A) :
  Exists (fun a => f a = false) l -> forallb f l = false.
Proof.
  induction 1 as [a l Ha | a l _ IH]; simpl.
  - now rewrite Ha.
  - rewrite IH. apply andb_false_r.
Qed.

Lemma similarities_mismatch (qs x : list (list R)) :
  Exists (fun row => List.length row <> Np.ncols qs) x ->
  similarities qs x = Raise ValueError.
Proof.
  intros H. unfold similarities, Np.dot_T.
  rewrite forallb_false_Exists; [reflexivity|].
  eapply Exists_impl; [|exact H]. intros row Hrow. now apply Nat.eqb_neq.
Qed.

(** X4.  A batch of queries whose dimension differs from that of some
    stored training vector is refused: the product of line 66 / line 70
    raises [ValueError], on the dense and on the sparse path. *)
Theorem dimension_mismatch_raises (self : t) (qs x : list (list R)) :
  (1 <= List.length qs)%nat ->
  Forall (fun q => List.length q = Np.ncols qs) qs ->
  Exists (fun row => List.length row <> Np.ncols qs) x ->
  (x_train_features self = Some (NdArray x) ->
   __call__ self (PyList (map Dense qs)) = Raise ValueError) /\
  (x_train_features self = Some (CsrFeatures x) ->
   __call__ self (CsrMatrix qs) = Raise ValueError).
Proof.
  intros Hne Hq Hx. split; intros Hf; apply call_raise_cos.
  - rewrite (@cos_similarities_dense self qs x Hf Hne Hq).
    now apply similarities_mismatch.
  - rewrite (@cos_similarities_sparse self qs x Hf Hne).
    now apply similarities_mismatch.
Qed.

Lemma dimension_mismatch_raises_witness :
  __call__ {| top_n := 1;
              x_train_features := Some (NdArray [[1; 0]]);
              y_train := Some ["A"%string] |}
           (PyList [Dense [1; 0; 0]])
  = Raise ValueError.
Proof.
  pose (self := {| top_n := 1;
                   x_train_features := Some (NdArray [[1; 0]]);
                   y_train := Some ["A"%string] |}).
  assert (Hne : (1 <= List.length [[1; 0; 0]])%nat) by (simpl; lia).
  assert (Hq : Forall (fun q : list R => List.length q
                                         = Np.ncols [[1; 0; 0]])
                      [[1; 0; 0]]) by (repeat constructor).
  assert (Hx : Exists (fun row : list R => List.length row
                                           <> Np.ncols [[1; 0; 0]])
                      [[1; 0]]) by (constructor; discriminate).
  exact (proj1 (@dimension_mismatch_raises self [[1; 0; 0]] [[1; 0]]
                  Hne Hq Hx) eq_refl).
Defined.

Lemma traverse_raises {A B : Type} (f : A -> result B) (l : list A)
  (e : exn) :
  (forall a, raises_only (fun e' => e' = e) (f a)) ->
  (exists a e', In a l /\ f a = Raise e') ->
  traverse f l = Raise e.
Proof.
  intros Hf. induction l as [|a l IH]; intros (a0 & e' & Hin & Ha0);
    [destruct Hin|].
  simpl. destruct (f a) as [b|e1] eqn:Ea.
  - cbn [bind]. rewrite IH; [reflexivity|].
    destruct Hin as [<- | Hin]; [congruence | eauto].
  - cbn [bind]. now rewrite (Hf a e1 Ea).
Qed.

Lemma column_raises_index (a : ndarray) (k : nat) :
  raises_only (fun e' => e' = IndexError) (column a k).
Proof.
  unfold column. destruct a as [a | rows].
  - intros e H. now inversion H.
  - destruct (Nat.ltb _ _); intros e H; [discriminate | now inversion H].
Qed.

(** X5.  [fit] does not compare the number of labels with the number of
    vectors.  With more labels than stored vectors, a dense query batch
    of the right dimension makes the call raise [IndexError]: line 80
    asks for a column of [cos_similarities] that does not exist. *)
Theorem more_labels_than_vectors_raises (self : t) (qs x : list (list R))
  (ys : list string) :
  x_train_features self = Some (NdArray x) ->
  y_train self = Some ys ->
  (1 <= List.length qs)%nat ->
  Forall (fun q => List.length q = Np.ncols qs) qs ->
  Forall (fun row => List.length row = Np.ncols qs) x ->
  (List.length x < List.length ys)%nat ->
  __call__ self (PyList (map Dense qs)) = Raise IndexError.
Proof.
  intros Hx Hy Hne Hq Hrows Hlen.
  unfold __call__, normalized.
  rewrite (@cos_similarities_dense self qs x Hx Hne Hq).
  rewrite (@similarities_dense qs x Hne Hrows). cbn [bind]. rewrite Hy.
  cbn [attr bind].
  set (rows := map _ qs).
  assert (Hcols : Np.ncols rows = List.length x).
  { unfold rows, Np.ncols. destruct qs as [|q0 qs']; [simpl in Hne; lia|].
    simpl. now rewrite length_map. }
  assert (Hl : labels_scores ys (Np.unique ys) (Arr2 rows)
               = Raise IndexError).
  { unfold labels_scores.
    rewrite (@traverse_raises _ _ _ _ IndexError); [reflexivity | |].
    - intros label e H. apply bind_raise in H.
      destruct H as [H | (cols & _ & H)]; [|discriminate].
      apply traverse_error in H. destruct H as (k & _ & H).
      exact (column_raises_index _ _ H).
    - destruct (nth_error ys (List.length x)) as [label|] eqn:E.
      2: { apply nth_error_None in E. lia. }
      exists label, IndexError. split.
      + apply unique_In. eapply nth_error_In; eauto.
      + rewrite (@traverse_raises _ _ _ _ IndexError); [reflexivity | |].
        * intros k. apply column_raises_index.
        * exists (List.length x), IndexError. split.
          -- now apply positions_spec.
          -- unfold column. rewrite Hcols.
             now rewrite Nat.ltb_irrefl. }
  now rewrite Hl.
Qed.

Lemma more_labels_than_vectors_raises_witness :
  __call__ {| top_n := 1;
              x_train_features := Some (NdArray [[1; 0]]);
              y_train := Some ["A"; "B"]%string |}
           (PyList [Dense [1; 0]])
  = Raise IndexError.
Proof.
  pose (self := {| top_n := 1;
                   x_train_features := Some (NdArray [[1; 0]]);
                   y_train := Some ["A"; "B"]%string |}).
  assert (Hne : (1 <= List.length [[1; 0]])%nat) by (simpl; lia).
  assert (Hq : Forall (fun q : list R => List.length q = Np.ncols [[1; 0]])
                      [[1; 0]]) by (repeat constructor).
  assert (Hlen : (List.length [[1; 0]] < List.length ["A"; "B"]%string)%nat)
    by (simpl; lia).
  exact (@more_labels_than_vectors_raises self [[1; 0]] [[1; 0]]
           ["A"; "B"]%string eq_refl eq_refl Hne Hq Hq Hlen).
Defined.

(** *** [fit] on vectors of one representation *)

Lemma np_vstack_dense (rows : list (list R)) :
  (1 <= List.length rows)%nat ->
  np_vstack (map Dense rows)
  = if forallb (fun row => Nat.eqb (List.length row) (Np.ncols rows)) rows
    then Ok (NdArray rows) else Raise ValueError.
Proof.
  intros Hne. unfold np_vstack, Np.ncols.
  destruct rows as [|r0 rows']; [simpl in Hne; lia|].
  cbn [map forallb width_2d is_dense dense_row hd].
  rewrite forallb_over_map, forallb_map_dense, map_map.
  cbn [width_2d dense_row].
  rewrite map_id. cbn [andb].
  now destruct (Nat.eqb _ _ && forallb _ rows').
Qed.

Lemma traverse_sparse_block (rows : list (list R)) :
  traverse sparse_block (map Sparse rows) = Ok rows.
Proof.
  induction rows as [|r rows IH]; simpl; [reflexivity | now rewrite IH].
Qed.

(** X7.  [fit] on a non-empty sequence of dense vectors, or of sparse
    rows: when the vectors have one length it returns normally and
    replaces whatever was trained before by the vectors, stacked in their
    order, and the labels as given (their number is not compared with the
    number of vectors), and it keeps [top_n]; when a vector has another
    length than the first it raises [ValueError] and the instance is left
    as it was. *)
Theorem fit_stores_vectors_and_labels (self : t) (rows : list (list R))
  (ys : list string) :
  (1 <= List.length rows)%nat ->
  (Forall (fun row => List.length row = Np.ncols rows) rows ->
   fit self (map Dense rows) ys
   = ({| top_n := top_n self;
         x_train_features := Some (NdArray rows);
         y_train := Some ys |}, Ok tt) /\
   fit self (map Sparse rows) ys
   = ({| top_n := top_n self;
         x_train_features := Some (CsrFeatures rows);
         y_train := Some ys |}, Ok tt)) /\
  (Exists (fun row => List.length row <> Np.ncols rows) rows ->
   fit self (map Dense rows) ys = (self, Raise ValueError) /\
   fit self (map Sparse rows) ys = (self, Raise ValueError)).
Proof.
  intros Hne.
  assert (Hlen : Nat.eqb (List.length (map Dense rows)) 0 = false
                 /\ Nat.eqb (List.length (map Sparse rows)) 0 = false)
    by (rewrite !length_map; split; apply Nat.eqb_neq; lia).
  destruct Hlen as (Hd & Hs).
  assert (Hfd : exists r0, getitem (map Dense rows) 0 = Ok (Dense r0))
    by (destruct rows as [|r0 ?]; [simpl in Hne; lia | now exists r0]).
  assert (Hfs : exists r0, getitem (map Sparse rows) 0 = Ok (Sparse r0))
    by (destruct rows as [|r0 ?]; [simpl in Hne; lia | now exists r0]).
  destruct Hfd as (rd & Hfd). destruct Hfs as (rs & Hfs).
  unfold fit, sparse_vstack. rewrite Hd, Hs, Hfd, Hfs. cbn [negb bind].
  rewrite (@np_vstack_dense rows Hne), traverse_sparse_block. cbn [bind].
  split; intros H.
  - assert (Hf : forallb (fun row => Nat.eqb (List.length row)
                                             (Np.ncols rows)) rows = true).
    { apply forallb_forall. rewrite Forall_forall in H.
      intros row Hrow. apply Nat.eqb_eq. now apply H. }
    rewrite Hf. split; reflexivity.
  - rewrite forallb_false_Exists; [split; reflexivity|].
    eapply Exists_impl; [|exact H]. intros row Hrow. now apply Nat.eqb_neq.
Qed.

Lemma fit_stores_vectors_and_labels_witness :
  let self := {| top_n := 3; x_train_features := None; y_train := None |} in
  fit self (map Dense [[1; 0]; [0; 1]]) ["A"; "B"]%string
  = ({| top_n := 3;
        x_train_features := Some (NdArray [[1; 0]; [0; 1]]);
        y_train := Some ["A"; "B"]%string |}, Ok tt) /\
  fit self (map Dense [[1; 0]; [0]]) ["A"; "B"]%string
  = (self, Raise ValueError).
Proof.
  intros self.
  assert (H1 : (1 <= List.length [[1; 0]; [0; 1]])%nat) by (simpl; lia).
  assert (H2 : (1 <= List.length [[1; 0]; [0]])%nat) by (simpl; lia).
  assert (Ha : Forall (fun row : list R => List.length row
                                           = Np.ncols [[1; 0]; [0; 1]])
                      [[1; 0]; [0; 1]]) by (repeat constructor).
  assert (Hb : Exists (fun row : list R => List.length row
                                           <> Np.ncols [[1; 0]; [0]])
                      [[1; 0]; [0]])
    by (apply Exists_cons_tl; constructor; discriminate).
  split.
  - exact (proj1 (proj1 (@fit_stores_vectors_and_labels self
                           [[1; 0]; [0; 1]] ["A"; "B"]%string H1) Ha)).
  - exact (proj1 (proj2 (@fit_stores_vectors_and_labels self
                           [[1; 0]; [0]] ["A"; "B"]%string H2) Hb)).
Defined.

End CosineSimilarityClassifierEdges.

(** ** The classifier: what the returned lists hold *)

Module CosineSimilarityClassifierAnswers.

Import CosineSimilarityClassifier CosineSimilarityClassifierFacts.
Open Scope R_scope.

(** *** [np.unique] sorts *)

Lemma compare_as_OT (a b : string) :
  String.compare a b = String_as_OT.compare a b.
Proof.
  revert b. induction a as [|c a IH]; destruct b as [|d b]; simpl;
    try reflexivity.
Qed.

Lemma str_lt_trans (a b c : string) : str_lt a b -> str_lt b c -> str_lt a c.
Proof.
  unfold str_lt. rewrite !compare_as_OT.
  apply (@StrictOrder_Transitive _ _ String_as_OT.lt_strorder).
Qed.

Lemma str_lt_irrefl (a : string) : ~ str_lt a a.
Proof.
  unfold str_lt. intros H.
  pose proof (String.compare_antisym a a) as E. rewrite H in E.
  discriminate.
Qed.

Lemma insert_unique_sorted (s : string) (l : list string) :
  StronglySorted str_lt l -> StronglySorted str_lt (Np.insert_unique s l).
Proof.
  induction l as [|x l IH]; simpl; intros Hl.
  - repeat constructor.
  - apply StronglySorted_inv in Hl. destruct Hl as (Hl & Hx).
    destruct (String.compare s x) eqn:E.
    + now constructor.
    + constructor; [now constructor|].
      constructor; [exact E|].
      rewrite Forall_forall in *. intros y Hy.
      apply str_lt_trans with x; [exact E | now apply Hx].
    + constructor; [now apply IH|].
      rewrite Forall_forall in *. intros y Hy.
      apply insert_unique_In in Hy. destruct Hy as [-> | Hy]; [|now apply Hx].
      unfold str_lt. rewrite String.compare_antisym, E. reflexivity.
Qed.

Lemma unique_sorted (l : list string) : StronglySorted str_lt (Np.unique l).
Proof.
  unfold Np.unique. induction l as [|s l IH]; simpl;
    [constructor | now apply insert_unique_sorted].
Qed.

Lemma StronglySorted_NoDup {A : Type} (R : A -> A -> Prop) (l : list A) :
  (forall a, ~ R a a) -> StronglySorted R l -> NoDup l.
Proof.
  intros Hirr. induction 1 as [|a l Hl IH Ha]; constructor; [|exact IH].
  intros Hin. rewrite Forall_forall in Ha. exact (Hirr a (Ha a Hin)).
Qed.

Lemma unique_NoDup (l : list string) : NoDup (Np.unique l).
Proof.
  apply (StronglySorted_NoDup str_lt_irrefl), unique_sorted.
Qed.

(** *** The ranked positions are distinct *)

Lemma above_irrefl (row : list R) (i : nat) : ~ above row i i.
Proof. unfold above. intros [H | (_ & H)]; [lra | lia]. Qed.

Lemma NoDup_skipn {A : Type} (n : nat) (l : list A) :
  NoDup l -> NoDup (skipn n l).
Proof.
  intros H. rewrite <- (firstn_skipn n l) in H.
  now apply NoDup_app_remove_l in H.
Qed.

Lemma ranking_NoDup (self : t) (row : list R) : NoDup (ranking self row).
Proof.
  unfold ranking. apply NoDup_rev.
  assert (H : NoDup (Np.argsort row)).
  { destruct (argsort_spec row) as (Hs & _).
    apply (StronglySorted_NoDup (R := fun i j => above row j i));
      [intros a; apply above_irrefl | exact Hs]. }
  unfold slice_last. destruct (top_n self); [exact H | now apply NoDup_skipn].
Qed.

Lemma traverse_Forall2 {A B : Type} (f : A -> result B) (l : list A)
  (ys : list B) :
  traverse f l = Ok ys -> Forall2 (fun a b => f a = Ok b) l ys.
Proof.
  revert ys. induction l as [|a l IH]; simpl; intros ys H.
  - inversion H. constructor.
  - apply bind_ok in H. destruct H as (b & Hb & H).
    apply bind_ok in H. destruct H as (bs & Hl & H).
    inversion H; subst. constructor; [exact Hb | now apply IH].
Qed.

Lemma looked_up_NoDup {A : Type} (labels : list A) (ids : list nat)
  (answer : list A) :
  NoDup labels -> NoDup ids ->
  Forall2 (fun id l => getitem labels id = Ok l) ids answer ->
  NoDup answer /\ forall l, In l answer -> In l labels.
Proof.
  intros Hlabels Hids H.
  induction H as [|id l ids answer Hl H IH]; [split; [constructor | easy]|].
  apply NoDup_cons_iff in Hids. destruct Hids as (Hid & Hids).
  destruct (IH Hids) as (Hnd & Hin). apply getitem_ok in Hl.
  split.
  - constructor; [|exact Hnd]. intros Hmem.
    apply Hid. clear IH Hnd Hin Hid Hids.
    induction H as [|id' l' ids answer Hl' H IH]; [destruct Hmem|].
    destruct Hmem as [-> | Hmem]; [|right; now apply IH].
    left. apply getitem_ok in Hl'.
    apply (proj1 (NoDup_nth_error labels) Hlabels);
      [apply nth_error_Some|]; congruence.
  - intros l0 [<- | Hl0]; [eapply nth_error_In; eauto | now apply Hin].
Qed.

(** X10.  Whatever a call returns: one list of labels and one list of
    scores per row of normalised scores, of the same length; the labels
    returned for a query are labels of the training set, and no label is
    returned twice for one query. *)
Theorem answers_are_distinct_training_labels (self : t) (q_vects : batch)
  (answers : list (list string)) (scores : list (list R))
  (ys : list string) :
  __call__ self q_vects = Ok (answers, scores) ->
  y_train self = Some ys ->
  Forall2 (fun (answer : list string) (score : list R) =>
             List.length answer = List.length score)
          answers scores /\
  Forall (fun answer => NoDup answer /\ forall l, In l answer -> In l ys)
         answers.
Proof.
  unfold __call__. intros H Hy.
  apply bind_ok in H. destruct H as (rows & _ & H).
  rewrite Hy in H. cbn [attr bind] in H.
  apply bind_ok in H. destruct H as (res & Hres & H).
  inversion H; subst. clear H.
  apply traverse_Forall2 in Hres.
  induction Hres as [|row (answer, score) rows res Hrow _ IH];
    [split; constructor|].
  destruct IH as (IH1 & IH2).
  apply bind_ok in Hrow. destruct Hrow as (answer' & Ha & Hrow).
  inversion Hrow; subst. clear Hrow.
  pose proof (traverse_ok_length _ _ Ha) as Hlen.
  apply traverse_Forall2 in Ha.
  destruct (looked_up_NoDup (unique_NoDup ys) (ranking_NoDup self row) Ha)
    as (Hnd & Hin).
  split; cbn [map fst snd]; constructor; try assumption.
  - now rewrite length_map.
  - split; [exact Hnd|]. intros l Hl. now apply unique_In, Hin.
Qed.

Lemma answers_are_distinct_training_labels_witness :
  Forall (fun answer => NoDup answer /\
                        forall l, In l answer -> In l ["A"; "B"]%string)
         [["B"; "A"]%string].
Proof.
  exact (proj2 (@answers_are_distinct_training_labels
                  {| top_n := 2;
                     x_train_features := Some (NdArray [[1; 0]; [0; 1]]);
                     y_train := Some ["A"; "B"]%string |}
                  (PyList [Dense [1; 1]]) [["B"; "A"]%string]
                  [[1 / 2; 1 / 2]] ["A"; "B"]%string tie_call eq_refl)).
Defined.

(** *** Equal scores *)

Lemma Forall2_nth {A B : Type} (P : A -> B -> Prop) (l : list A)
  (l' : list B) (d : A) (d' : B) (a : nat) :
  Forall2 P l l' -> (a < List.length l)%nat -> P (nth a l d) (nth a l' d').
Proof.
  intros H. revert a. induction H as [|x y l l' Hxy _ IH]; intros a Ha;
    [simpl in Ha; lia|].
  destruct a as [|a]; simpl in *; [exact Hxy | apply IH; lia].
Qed.

Lemma Forall2_length_eq {A B : Type} (P : A -> B -> Prop) (l : list A)
  (l' : list B) :
  Forall2 P l l' -> List.length l = List.length l'.
Proof. induction 1; simpl; congruence. Qed.

(** X11.  The order of the labels lines 84-93 return for one row of
    scores, in terms of the labels themselves (for [top_n >= 1], the
    labels of [np.unique] and a row of at most 16 numbers, where
    [np.argsort] is an insertion sort): a label comes before another when
    its score before rounding is larger, and of two labels with the same
    score the one that is LARGER in the order of [np.unique] (the
    lexicographic order of the strings) comes first. *)
Theorem equal_scores_larger_label_first (self : t) (ys : list string)
  (rows : list (list R)) (answers : list (list string))
  (scores : list (list R)) :
  (1 <= top_n self)%nat ->
  answers_and_scores self (Np.unique ys) rows = Ok (answers, scores) ->
  Forall2 (fun (row : list R) (answer : list string) =>
             (List.length row <= 16)%nat ->
             let ids := ranking self row in
             List.length answer = List.length ids /\
             forall a b, (a < b < List.length answer)%nat ->
               nth (nth b ids 0%nat) row 0 < nth (nth a ids 0%nat) row 0 \/
               (nth (nth b ids 0%nat) row 0 = nth (nth a ids 0%nat) row 0 /\
                String.compare (nth b answer ""%string)
                               (nth a answer ""%string) = Lt))
          rows answers.
Proof.
  unfold answers_and_scores. intros Htop H.
  apply bind_ok in H. destruct H as (res & Hres & H).
  inversion H; subst. clear H.
  apply traverse_Forall2 in Hres.
  induction Hres as [|row (answer, score) rows res Hrow _ IH];
    [constructor|].
  cbn [map fst]. constructor; [|exact IH]. clear IH.
  apply bind_ok in Hrow. destruct Hrow as (answer' & Ha & Hrow).
  inversion Hrow; subst. clear Hrow.
  intros _. set (ids := ranking self row) in *.
  apply traverse_Forall2 in Ha.
  pose proof (Forall2_length_eq Ha) as Hlen.
  split; [now symmetry|]. intros a b Hab.
  destruct (@ranking_spec row self Htop) as (_ & Hord & _).
  fold ids in Hord. rewrite <- Hlen in Hab.
  destruct (Hord a b Hab) as [Hlt | (Heq & Hidx)]; [now left | right].
  split; [exact Heq|].
  assert (Ga := @Forall2_nth _ _ _ ids answer 0%nat ""%string a Ha
                  ltac:(lia)).
  assert (Gb := @Forall2_nth _ _ _ ids answer 0%nat ""%string b Ha
                  ltac:(lia)).
  cbv beta in Ga, Gb. apply getitem_ok in Ga, Gb.
  assert (Hia : (nth a ids 0 < List.length (Np.unique ys))%nat)
    by (apply nth_error_Some; congruence).
  rewrite <- (nth_error_nth _ _ ""%string Ga).
  rewrite <- (nth_error_nth _ _ ""%string Gb).
  apply (@StronglySorted_nth _ str_lt (Np.unique ys) ""%string
           (unique_sorted ys)).
  lia.
Qed.

Lemma equal_scores_larger_label_first_witness :
  let self := {| top_n := 2;
                 x_train_features := Some (NdArray [[1; 0]; [0; 1]]);
                 y_train := Some ["A"; "B"]%string |} in
  Forall2 (fun (row : list R) (answer : list string) =>
             (List.length row <= 16)%nat ->
             let ids := ranking self row in
             List.length answer = List.length ids /\
             forall a b, (a < b < List.length answer)%nat ->
               nth (nth b ids 0%nat) row 0 < nth (nth a ids 0%nat) row 0 \/
               (nth (nth b ids 0%nat) row 0 = nth (nth a ids 0%nat) row 0 /\
                String.compare (nth b answer ""%string)
                               (nth a answer ""%string) = Lt))
          [[1 / 2; 1 / 2]] [["B"; "A"]%string].
Proof.
  intros self.
  assert (Htop : (1 <= top_n self)%nat) by (simpl; lia).
  exact (@equal_scores_larger_label_first self ["A"; "B"]%string
           [[1 / 2; 1 / 2]] [["B"; "A"]%string] [[1 / 2; 1 / 2]]
           Htop (@tie_answers 2 ltac:(lia))).
Defined.

(** *** Rounding *)




End CosineSimilarityClassifierAnswers.

(** ** The re-ranker: exceptions *)

Module ChitChatReRankerEdges.

Import ChitChatReRanker ChitChatReRankerFacts.
Import CosineSimilarityClassifierFacts.
Open Scope R_scope.

Lemma index_filter_raises (keep : string -> bool) (tags : list string)
  (js : list nat) :
  raises_only index_error (index_filter keep tags js).
Proof. intros e H. now apply index_filter_error in H. Qed.

Lemma filter_intents_raises (last : string) (tags : list string) (n : nat) :
  raises_only index_error (filter_intents last tags n).
Proof.
  unfold filter_intents.
  repeat match goal with
         | |- context [if ?b then _ else _] => destruct b
         end;
    first [apply index_filter_raises | apply raises_only_ok].
Qed.

Lemma filter_sentiment_raises (last : string) (tags : list string)
  (n : nat) :
  raises_only index_error (filter_sentiment last tags n).
Proof.
  unfold filter_sentiment.
  apply raises_only_bind; [apply index_filter_raises | intros l].
  repeat match goal with
         | |- context [if ?b then _ else _] => destruct b
         end;
    first [apply index_filter_raises | apply raises_only_ok].
Qed.

Lemma getitem_raises {A : Type} (l : list A) (k : nat) :
  raises_only index_error (getitem l k).
Proof. intros e H. now apply getitem_error in H. Qed.

Lemma getitem_int_raises {A : Type} (l : list A) (k : Z) :
  raises_only index_error (getitem_int l k).
Proof. intros e H. now apply getitem_int_error in H. Qed.

Lemma filters_raises (self : t) (rs ri : list (list string))
  (responses : list string) (i : nat) :
  raises_only index_error (filters self rs ri responses i).
Proof.
  unfold filters.
  apply raises_only_bind; [apply getitem_raises | intros gi].
  apply raises_only_bind; [apply getitem_int_raises | intros last_i].
  apply raises_only_bind; [apply filter_intents_raises | intros fi].
  apply raises_only_bind; [apply getitem_raises | intros gs].
  apply raises_only_bind; [apply getitem_int_raises | intros last_s].
  apply raises_only_bind; [apply filter_sentiment_raises | intros fs].
  apply raises_only_ok.
Qed.

Lemma gather_raises {A : Type} (l : list A) (pool : list nat) :
  raises_only index_error (traverse (getitem l) pool).
Proof. apply raises_only_traverse. intros k. apply getitem_raises. Qed.

Lemma select_raises (set_iter : list nat -> list nat)
  (top_scores_batch : list (list R)) (responses : list string) (i : nat)
  (fi fs : list nat) :
  raises_only index_error
              (select set_iter top_scores_batch responses i fi fs).
Proof.
  unfold select.
  repeat match goal with
         | |- context [if ?b then _ else _] => destruct b
         end;
    repeat first [ apply raises_only_ok
                 | apply gather_raises
                 | apply getitem_raises
                 | apply raises_only_bind; [|intros ?] ].
Qed.

(** The pool handed to the sampling step is not empty when the candidate
    list is not. *)
Lemma select_nonempty (set_iter : list nat -> list nat)
  (top_scores_batch : list (list R)) (responses : list string) (i : nat)
  (fi fs : list nat) (candidates : list string) (scores : list R) :
  select set_iter top_scores_batch responses i fi fs
    = Ok (candidates, scores) ->
  (1 <= List.length responses)%nat -> (1 <= List.length candidates)%nat.
Proof.
  unfold select. intros H Hne.
  destruct (Nat.ltb_spec 0 (List.length (set_iter (intersection fi fs))))
    as [Ha | Ha].
  { apply bind_ok in H. destruct H as (cs & Hc & H).
    apply bind_ok in H. destruct H as (si & _ & H).
    apply bind_ok in H. destruct H as (ss & _ & H).
    inversion H; subst. apply traverse_ok_length in Hc. lia. }
  destruct (Nat.eqb_spec (List.length fs) 0) as [Hb | Hb]; cbn [negb] in H.
  2: { apply bind_ok in H. destruct H as (cs & Hc & H).
       apply bind_ok in H. destruct H as (si & _ & H).
       apply bind_ok in H. destruct H as (ss & _ & H).
       inversion H; subst. apply traverse_ok_length in Hc. lia. }
  destruct (Nat.eqb_spec (List.length fi) 0) as [Hc' | Hc']; cbn [negb] in H.
  2: { apply bind_ok in H. destruct H as (cs & Hc & H).
       apply bind_ok in H. destruct H as (si & _ & H).
       apply bind_ok in H. destruct H as (ss & _ & H).
       inversion H; subst. apply traverse_ok_length in Hc. lia. }
  apply bind_ok in H. destruct H as (si & _ & H). now inversion H; subst.
Qed.

(** The argument checks of [np.random.choice] pass on the weights of a
    pool that is not empty. *)
Lemma random_choice_checks (self : t) (n : nat) (u : R) :
  (1 <= n)%nat ->
  Np.random_choice (range n) (sampling_weights self n) u
  = getitem (range n)
      (Np.searchsorted_right (Np.cumsum (sampling_weights self n)) u).
Proof.
  intros Hn. unfold Np.random_choice, range.
  rewrite length_seq, sampling_weights_length, Nat.eqb_refl.
  destruct (Nat.eqb_spec n 0) as [->|_]; [lia|]. cbn [negb].
  assert (Hneg : existsb (fun x => Np.Rltb x 0) (sampling_weights self n)
                 = false).
  { apply not_true_is_false. intros H. apply existsb_exists in H.
    destruct H as (x & Hx & Hlt). apply NpFacts.Rltb_true in Hlt.
    apply (In_nth _ _ 0) in Hx. destruct Hx as (k & Hk & <-).
    rewrite sampling_weights_length in Hk.
    rewrite sampling_weights_nth in Hlt by assumption.
    pose proof (weight_pos self k). pose proof (total_weight_pos self Hn).
    assert (0 < weight self k / Np.sum (map (weight self) (seq 0 n)))
      by now apply Rdiv_lt_0_compat.
    lra. }
  rewrite Hneg, (sampling_weights_sum self Hn).
  assert (Htol : Np.Rltb Np.atol (Rabs (1 - 1)) = false).
  { apply NpFacts.Rltb_false. replace (1 - 1) with 0 by ring.
    rewrite Rabs_R0. unfold Np.atol.
    left. apply Rinv_0_lt_compat. apply pow_lt. lra. }
  rewrite Htol.
  assert (Hlast : last (Np.cumsum (sampling_weights self n)) 0 = 1).
  { unfold Np.cumsum.
    rewrite cumsum_from_last by (rewrite sampling_weights_length; lia).
    rewrite (sampling_weights_sum self Hn). ring. }
  rewrite Hlast. do 2 f_equal. unfold Np.div_scalar.
  rewrite <- (map_id (Np.cumsum _)) at 2. apply map_ext. intros a. field.
Qed.

Lemma sample_raises (self : t) (candidates : list string) (scores : list R)
  (u : R) :
  (1 <= List.length candidates)%nat ->
  raises_only index_error (sample self candidates scores u).
Proof.
  intros Hne. unfold sample. rewrite (random_choice_checks self u Hne).
  repeat first [ apply raises_only_ok
               | apply getitem_raises
               | apply raises_only_bind; [|intros ?] ].
Qed.

Lemma sample_raises_any (self : t) (candidates : list string)
  (scores : list R) (u : R) :
  raises_only (fun e => e = IndexError \/ e = ValueError)
              (sample self candidates scores u).
Proof.
  destruct candidates as [|c cs].
  - intros e H. rewrite sample_empty in H. inversion H. now right.
  - intros e H. left.
    exact (@sample_raises self (c :: cs) scores u ltac:(simpl; lia) e H).
Qed.

Section Exceptions.

Variable set_iter : list nat -> list nat.
Variable self : t.
Variable top_responses_batch : list (list string).
Variable top_scores_batch : list (list R).
Variable sentiment_batch : list string.
Variable intents_batch : list string.
Variable random_sample : nat -> R.

Lemma element_raises (rs ri : list (list string)) (i : nat) :
  raises_only (element_failure top_responses_batch i)
    (element set_iter self top_responses_batch top_scores_batch random_sample
             rs ri i).
Proof.
  intros e H. unfold element in H.
  apply bind_raise in H.
  destruct H as [H | (responses & Hresp & H)];
    [left; now apply getitem_error in H|].
  apply bind_raise in H.
  destruct H as [H | ((fi & fs) & Hf & H)];
    [left; exact (@filters_raises _ _ _ _ _ e H)|].
  apply bind_raise in H.
  destruct H as [H | ((candidates & scores) & Hsel & H)];
    [left; exact (@select_raises _ _ _ _ _ _ e H)|].
  destruct responses as [|r responses].
  - destruct (@sample_raises_any _ _ _ _ e H) as [-> | ->]; [now left|].
    right. split; [reflexivity | now apply getitem_ok].
  - left. apply select_nonempty in Hsel; [|simpl; lia].
    exact (@sample_raises _ _ _ _ Hsel e H).
Qed.

Lemma loop_raises_element (rs ri : list (list string)) (ids : list nat)
  (acc_r : list string) (acc_p : list R) (e : exn) :
  loop set_iter self top_responses_batch top_scores_batch random_sample
       rs ri ids acc_r acc_p = Raise e ->
  exists i, In i ids /\ element_failure top_responses_batch i e.
Proof.
  revert acc_r acc_p.
  induction ids as [|i ids IH]; simpl; intros acc_r acc_p H; [discriminate|].
  apply bind_raise in H. destruct H as [H | ((r & s) & _ & H)].
  - exists i. split; [now left | exact (@element_raises _ _ _ e H)].
  - destruct (IH _ _ H) as (j & Hj & He). exists j. split; [now right | exact He].
Qed.

Lemma call_raises_cases (e : exn) :
  __call__ set_iter self top_responses_batch top_scores_batch sentiment_batch
       intents_batch random_sample = Raise e ->
  (e = IndexError /\ top_responses_batch = []) \/
  (e = ZeroDivisionError /\ num_context_turns self = 0%nat /\
   exists rest, top_responses_batch = [] :: rest) \/
  exists i, element_failure top_responses_batch i e.
Proof.
  unfold __call__. intros H.
  destruct top_responses_batch as [|first rest] eqn:E.
  - left. cbn in H. inversion H. now split.
  - cbn [getitem nth_error bind] in H.
    destruct (Nat.eqb_spec (num_context_turns self + List.length first) 0)
      as [Hz | Hz].
    + right. left. inversion H. split; [reflexivity|].
      split; [lia|]. exists rest.
      destruct first; [reflexivity | simpl in Hz; lia].
    + right. right. rewrite <- E in H. apply loop_raises_element in H.
      destruct H as (i & _ & He). rewrite <- E. now exists i.
Qed.

End Exceptions.

(** X13.  The call raises nothing but [IndexError], [ZeroDivisionError]
    and [ValueError].  It raises [ZeroDivisionError] exactly when
    [num_context_turns] is 0 and the first candidate list of the batch is
    empty: the segment width of line 51 is then 0 and line 55 divides by
    it.  On an empty batch it raises [IndexError], from the
    [top_responses_batch[0]] of line 51. *)
Theorem call_exception_kinds (set_iter : list nat -> list nat) (self : t)
  (top_responses_batch : list (list string))
  (top_scores_batch : list (list R))
  (sentiment_batch intents_batch : list string) (random_sample : nat -> R) :
  let call :=
    __call__ set_iter self top_responses_batch top_scores_batch
         sentiment_batch intents_batch random_sample in
  (forall e, call = Raise e ->
             e = IndexError \/ e = ZeroDivisionError \/ e = ValueError) /\
  (call = Raise ZeroDivisionError <->
   num_context_turns self = 0%nat /\
   exists rest, top_responses_batch = [] :: rest) /\
  (top_responses_batch = [] -> call = Raise IndexError).
Proof.
  intros call. split; [|split].
  - intros e H. apply call_raises_cases in H.
    destruct H as [(-> & _) | [(-> & _) | (i & [-> | (-> & _)])]]; auto.
  - split.
    + intros H. apply call_raises_cases in H.
      destruct H as [(H & _) | [(_ & H) | (i & [H | (H & _)])]];
        first [discriminate | exact H].
    + intros (Hz & rest & ->). unfold call, __call__.
      cbn [getitem nth_error bind List.length]. rewrite Hz. reflexivity.
  - intros ->. reflexivity.
Qed.

(** X14.  With a positive [lambda_coeff], a batch none of whose candidate
    lists is empty makes the call raise nothing but [IndexError]: the
    [ValueError] of [np.random.choice] (line 128) needs an empty
    candidate list, since the fallback chain of lines 105-120 never hands
    it an empty pool otherwise. *)
Theorem nonempty_candidates_raise_only_index_error
  (set_iter : list nat -> list nat) (self : t)
  (top_responses_batch : list (list string))
  (top_scores_batch : list (list R))
  (sentiment_batch intents_batch : list string) (random_sample : nat -> R)
  (e : exn) :
  0 < lambda_coeff self ->
  Forall (fun responses => responses <> []) top_responses_batch ->
  __call__ set_iter self top_responses_batch top_scores_batch sentiment_batch
       intents_batch random_sample = Raise e ->
  e = IndexError.
Proof.
  intros _ Hne H. apply call_raises_cases in H.
  destruct H as [(-> & _) | [(_ & _ & rest & ->) | (i & [-> | (_ & Hi)])]].
  - reflexivity.
  - apply Forall_inv in Hne. congruence.
  - reflexivity.
  - apply nth_error_In in Hi. rewrite Forall_forall in Hne.
    now apply Hne in Hi.
Qed.

Lemma nonempty_candidates_raise_only_index_error_witness :
  let self := {| num_context_turns := 1; lambda_coeff := 10 |} in
  0 < lambda_coeff self /\
  Forall (fun responses => responses <> []) [["a"; "b"]%string] /\
  __call__ (fun s => s) self [["a"; "b"]%string] []
       ["neutral"; "neutral"; "neutral"]%string
       ["declarative"; "declarative"; "declarative"]%string (fun _ => 0)
  = Raise IndexError /\
  IndexError = IndexError.
Proof.
  intros self.
  assert (Hl : 0 < lambda_coeff self) by (simpl; lra).
  assert (Hne : Forall (fun responses => responses <> [])
                       [["a"; "b"]%string])
    by (repeat constructor; discriminate).
  assert (Hcall :
    __call__ (fun s => s) self [["a"; "b"]%string] []
         ["neutral"; "neutral"; "neutral"]%string
         ["declarative"; "declarative"; "declarative"]%string (fun _ => 0)
    = Raise IndexError) by reflexivity.
  split; [exact Hl|]. split; [exact Hne|]. split; [exact Hcall|].
  exact (@nonempty_candidates_raise_only_index_error
           (fun s => s) self [["a"; "b"]%string] []
           ["neutral"; "neutral"; "neutral"]%string
           ["declarative"; "declarative"; "declarative"]%string
           (fun _ => 0) IndexError Hl Hne Hcall).
Defined.

(** *** The segment width is taken from the first element *)

(** With a width of two or more, every group lines 55-57 build is a list
    of exactly that many tags. *)
Lemma reshape_group_length (tags : list string) (batch_size i : nat)
  (group : list string) :
  (2 <= batch_size)%nat ->
  getitem (reshape tags batch_size (List.length tags / batch_size)) i
    = Ok group ->
  List.length group = batch_size.
Proof.
  intros Hbs H. apply getitem_ok in H. unfold reshape in H.
  assert (Hi : (i < List.length tags / batch_size)%nat).
  { assert (Hs : nth_error
                   (map (fun i => squeeze_tolist
                           (slice tags (i * batch_size)
                                  ((i + 1) * batch_size)))
                        (range (List.length tags / batch_size))) i <> None)
      by congruence.
    apply nth_error_Some in Hs.
    unfold range in Hs. now rewrite length_map, length_seq in Hs. }
  apply (nth_error_nth _ _ []) in H.
  rewrite (nth_map_lt _ _ [] 0%nat) in H
    by (unfold range; now rewrite length_seq).
  unfold range in H. rewrite seq_nth in H by assumption. simpl in H.
  assert (Hfull : ((i + 1) * batch_size <= List.length tags)%nat).
  { pose proof (Nat.Div0.mul_div_le (List.length tags) batch_size).
    nia. }
  assert (Hl : List.length (slice tags (i * batch_size)
                                  ((i + 1) * batch_size)) = batch_size)
    by (rewrite slice_length; nia).
  rewrite squeeze_tolist_list in H by lia. now subst group.
Qed.

(** The default comprehension of line 85 reads a sentiment tag for every
    candidate. *)
Lemma filter_sentiment_reads_all (last : string) (tags : list string)
  (n : nat) (l : list nat) :
  filter_sentiment last tags n = Ok l -> (n <= List.length tags)%nat.
Proof.
  unfold filter_sentiment. intros H.
  apply bind_ok in H. destruct H as (l0 & H0 & _).
  apply index_filter_ok in H0. destruct H0 as (_ & Hlt).
  destruct n as [|n]; [lia|].
  specialize (Hlt n). apply Hlt. unfold range. apply in_seq. lia.
Qed.

(** X15.  The width of the tag segments is computed once, from the first
    candidate list (line 51).  When this width is at least 2, a batch
    element with more candidates than the first makes the call raise: the
    comprehension of line 85 reads one sentiment tag per candidate, and the
    element's segment holds only as many as the first list has
    candidates. *)
Theorem longer_than_first_list_raises (set_iter : list nat -> list nat)
  (self : t) (top_responses_batch : list (list string))
  (top_scores_batch : list (list R))
  (sentiment_batch intents_batch : list string) (random_sample : nat -> R)
  (i : nat) (responses : list string) :
  (2 <= num_context_turns self
        + List.length (hd [] top_responses_batch))%nat ->
  nth_error top_responses_batch i = Some responses ->
  (List.length (hd [] top_responses_batch) < List.length responses)%nat ->
  exists e,
    __call__ set_iter self top_responses_batch top_scores_batch
         sentiment_batch intents_batch random_sample = Raise e.
Proof.
  intros Hbs Hresp Hlong.
  destruct (__call__ set_iter self top_responses_batch top_scores_batch
                 sentiment_batch intents_batch random_sample)
    as [out | e] eqn:Hcall; [exfalso | now exists e].
  unfold __call__ in Hcall.
  apply bind_ok in Hcall. destruct Hcall as (first & Hfirst & Hcall).
  assert (Hhd : hd [] top_responses_batch = first).
  { apply getitem_ok in Hfirst.
    destruct top_responses_batch; [discriminate | now inversion Hfirst]. }
  rewrite Hhd in Hbs, Hlong.
  destruct (Nat.eqb_spec (num_context_turns self + List.length first) 0)
    as [Hz | _]; [lia|].
  apply loop_ok in Hcall.
  destruct Hcall as (new_r & new_p & _ & _ & _ & Hk).
  assert (Hi : (i < List.length top_responses_batch)%nat)
    by (apply nth_error_Some; congruence).
  unfold range in Hk. rewrite length_seq in Hk. specialize (Hk i Hi).
  rewrite seq_nth in Hk by assumption. simpl in Hk.
  unfold element in Hk.
  apply bind_ok in Hk. destruct Hk as (responses' & Hr' & Hk).
  apply getitem_ok in Hr'.
  assert (responses' = responses) by congruence. subst responses'.
  apply bind_ok in Hk. destruct Hk as ((fi & fs) & Hf & _).
  unfold filters in Hf.
  apply bind_ok in Hf. destruct Hf as (intents_i & _ & Hf).
  apply bind_ok in Hf. destruct Hf as (last_i & _ & Hf).
  apply bind_ok in Hf. destruct Hf as (fi' & _ & Hf).
  apply bind_ok in Hf. destruct Hf as (sentiment_i & Hg & Hf).
  apply bind_ok in Hf. destruct Hf as (last_s & _ & Hf).
  apply bind_ok in Hf. destruct Hf as (fs' & Hfs & _).
  apply filter_sentiment_reads_all in Hfs.
  apply reshape_group_length in Hg; [|exact Hbs].
  unfold slice_from in Hfs. rewrite length_skipn in Hfs. lia.
Qed.

Lemma longer_than_first_list_raises_witness :
  let self := {| num_context_turns := 1; lambda_coeff := 10 |} in
  exists e,
    __call__ (fun s => s) self [["a"]; ["b"; "c"]]%string
         [[1]; [1; 1]]
         ["neutral"; "neutral"; "neutral"; "neutral"]%string
         ["declarative"; "declarative"; "declarative"; "declarative"]%string
         (fun _ => 0)
    = Raise e.
Proof.
  intros self.
  apply (@longer_than_first_list_raises (fun s => s) self
           [["a"]; ["b"; "c"]]%string [[1]; [1; 1]]
           ["neutral"; "neutral"; "neutral"; "neutral"]%string
           ["declarative"; "declarative"; "declarative"; "declarative"]%string
           (fun _ => 0) 1%nat ["b"; "c"]%string).
  - simpl. lia.
  - reflexivity.
  - simpl. lia.
Defined.

(** *** The filters, read on the tag streams *)

Lemma sentiment_keeps_not_negative (last tag : string) :
  sentiment_keeps last tag = true ->
  tag <> "negative"%string /\ tag <> "skip"%string.
Proof.
  unfold sentiment_keeps, str_in. cbn [existsb].
  destruct (String.eqb last "negative");
    [|destruct (String.eqb last "neutral");
      [|destruct (String.eqb last "speech");
        [|destruct (String.eqb last "positive")]]];
    intros H; split; intros ->; cbn in H; discriminate.
Qed.

Lemma filter_sentiment_spec (last : string) (tags : list string) (n : nat)
  (l : list nat) :
  filter_sentiment last tags n = Ok l ->
  l = filter (fun j => sentiment_keeps last (nth j tags ""%string)) (range n)
  /\ (n <= List.length tags)%nat.
Proof.
  intros H. split; [|exact (filter_sentiment_reads_all _ _ _ H)].
  unfold filter_sentiment in H.
  apply bind_ok in H. destruct H as (l0 & H0 & H).
  unfold sentiment_keeps.
  destruct (String.eqb last "negative");
    [|destruct (String.eqb last "neutral");
      [|destruct (String.eqb last "speech");
        [|destruct (String.eqb last "positive")]]].
  1-4: now apply index_filter_ok in H.
  inversion H; subst. now apply index_filter_ok in H0.
Qed.

Lemma filter_intents_spec (last : string) (tags : list string) (n : nat)
  (l : list nat) :
  filter_intents last tags n = Ok l ->
  l = filter (fun j => intent_keeps last (nth j tags ""%string)) (range n).
Proof.
  unfold filter_intents, intent_keeps. intros H.
  destruct (String.eqb last "interrogative");
    [|destruct (String.eqb last "imperative")].
  1-2: now apply index_filter_ok in H.
  inversion H; subst. clear H.
  induction (range n) as [|j js IH]; [reflexivity|].
  simpl. now rewrite <- IH.
Qed.

(** Group [i] of lines 55-57. *)
Lemma reshape_getitem (tags : list string) (batch_size n_groups i : nat)
  (group : list string) :
  getitem (reshape tags batch_size n_groups) i = Ok group ->
  (i < n_groups)%nat /\
  group = squeeze_tolist
            (slice tags (i * batch_size) ((i + 1) * batch_size)).
Proof.
  intros H. apply getitem_ok in H. unfold reshape in H.
  assert (Hi : (i < n_groups)%nat).
  { assert (Hs : nth_error
                   (map (fun i => squeeze_tolist
                           (slice tags (i * batch_size)
                                  ((i + 1) * batch_size)))
                        (range n_groups)) i <> None)
      by congruence.
    apply nth_error_Some in Hs.
    unfold range in Hs. now rewrite length_map, length_seq in Hs. }
  split; [exact Hi|].
  apply (nth_error_nth _ _ []) in H.
  rewrite (nth_map_lt _ _ [] 0%nat) in H
    by (unfold range; now rewrite length_seq).
  unfold range in H. rewrite seq_nth in H by assumption. now simpl in H.
Qed.

(** With a width of two or more, a full segment of the stream stays the
    list of its tags. *)
Lemma full_segment (tags : list string) (batch_size i : nat) :
  (2 <= batch_size)%nat ->
  ((i + 1) * batch_size <= List.length tags)%nat ->
  squeeze_tolist (slice tags (i * batch_size) ((i + 1) * batch_size))
  = slice tags (i * batch_size) ((i + 1) * batch_size).
Proof.
  intros Hbs Hfull. apply squeeze_tolist_list.
  rewrite slice_length; nia.
Qed.

Lemma slice_nth (tags : list string) (a b k : nat) :
  (k < b - a)%nat ->
  nth k (slice tags a b) ""%string = nth (a + k) tags ""%string.
Proof.
  intros Hk. unfold slice. rewrite nth_firstn.
  destruct (Nat.ltb_spec k (b - a)); [apply nth_skipn | lia].
Qed.

(** The tag of candidate [j] of element [i] in the stream. *)
Lemma group_tag (tags : list string) (batch_size nct i j : nat) :
  (nct + j < batch_size)%nat ->
  nth j (slice_from (slice tags (i * batch_size) ((i + 1) * batch_size)) nct)
      ""%string
  = nth (i * batch_size + nct + j) tags ""%string.
Proof.
  intros Hj. unfold slice_from. rewrite nth_skipn, slice_nth by nia.
  f_equal. lia.
Qed.

(** The tag of the last utterance of element [i] in the stream. *)
Lemma group_last (tags : list string) (batch_size nct i : nat)
  (last : string) :
  (1 <= nct)%nat -> (nct <= batch_size)%nat ->
  getitem_int (slice tags (i * batch_size) ((i + 1) * batch_size))
              (Z.of_nat nct - 1) = Ok last ->
  last = nth (i * batch_size + nct - 1) tags ""%string.
Proof.
  intros Hn Hb H. unfold getitem_int in H.
  destruct (Z.leb_spec 0 (Z.of_nat nct - 1)) as [_ | Hneg]; [|lia].
  replace (Z.to_nat (Z.of_nat nct - 1)) with (nct - 1)%nat in H by lia.
  apply getitem_ok in H. apply (nth_error_nth _ _ ""%string) in H.
  rewrite slice_nth in H by nia. subst last. f_equal. lia.
Qed.

(** The pool of the loop body when it returns, by positions. *)
Lemma select_pool (set_iter : list nat -> list nat)
  (top_scores_batch : list (list R)) (responses : list string) (i : nat)
  (fi fs : list nat) (candidates : list string) (scores : list R)
  (c : nat) (r : string) (s : R) :
  set_order set_iter ->
  select set_iter top_scores_batch responses i fi fs
    = Ok (candidates, scores) ->
  nth_error candidates c = Some r -> nth_error scores c = Some s ->
  exists p,
    nth_error responses p = Some r /\
    nth_error (nth i top_scores_batch []) p = Some s /\
    (fs <> [] -> In p fs) /\
    ((exists q, In q fi /\ In q fs) -> In p fi /\ In p fs).
Proof.
  intros Horder H Hr Hs. unfold select in H.
  assert (Hpool : forall pool scores_i,
             traverse (getitem responses) pool = Ok candidates ->
             getitem top_scores_batch i = Ok scores_i ->
             traverse (getitem scores_i) pool = Ok scores ->
             exists p, In p pool /\ nth_error responses p = Some r /\
                       nth_error (nth i top_scores_batch []) p = Some s).
  { intros pool scores_i Hc Hi Hsc.
    destruct (traverse_ok_nth _ _ _ Hc Hr) as (p & Hp & Hpr).
    destruct (traverse_ok_nth _ _ _ Hsc Hs) as (p' & Hp' & Hps).
    assert (p' = p) by congruence. subst p'.
    exists p. split; [now apply nth_error_In in Hp|].
    apply getitem_ok in Hi. rewrite (nth_error_nth _ _ [] Hi).
    split; now apply getitem_ok. }
  destruct (Nat.ltb_spec 0 (List.length (set_iter (intersection fi fs))))
    as [Ha | Ha].
  { apply bind_ok in H. destruct H as (cs & Hc & H).
    apply bind_ok in H. destruct H as (scores_i & Hi & H).
    apply bind_ok in H. destruct H as (ss & Hsc & H).
    inversion H; subst cs ss.
    destruct (Hpool _ _ Hc Hi Hsc) as (p & Hin & Hpr & Hps).
    apply (set_iter_intersection Horder) in Hin.
    exists p. split; [exact Hpr|]. split; [exact Hps|].
    split; [intros _; apply Hin | intros _; exact Hin]. }
  assert (Hnone : forall q, In q fi -> In q fs -> False).
  { intros q Hqi Hqs.
    assert (Hq : In q (set_iter (intersection fi fs)))
      by now apply (set_iter_intersection Horder).
    destruct (set_iter (intersection fi fs)); [destruct Hq | simpl in Ha; lia]. }
  destruct (Nat.eqb_spec (List.length fs) 0) as [Hb | Hb]; cbn [negb] in H.
  2: { apply bind_ok in H. destruct H as (cs & Hc & H).
       apply bind_ok in H. destruct H as (scores_i & Hi & H).
       apply bind_ok in H. destruct H as (ss & Hsc & H).
       inversion H; subst cs ss.
       destruct (Hpool _ _ Hc Hi Hsc) as (p & Hin & Hpr & Hps).
       exists p. split; [exact Hpr|]. split; [exact Hps|].
       split; [intros _; exact Hin|].
       intros (q & Hqi & Hqs). destruct (Hnone q Hqi Hqs). }
  assert (Hfs : fs = []) by (destruct fs; [reflexivity | discriminate]).
  subst fs.
  assert (Hp : exists p, nth_error responses p = Some r /\
                         nth_error (nth i top_scores_batch []) p = Some s).
  { destruct (Nat.eqb_spec (List.length fi) 0) as [Hc' | Hc'];
      cbn [negb] in H.
    - apply bind_ok in H. destruct H as (scores_i & Hi & H).
      inversion H; subst. apply getitem_ok in Hi.
      rewrite (nth_error_nth _ _ [] Hi). now exists c.
    - apply bind_ok in H. destruct H as (cs & Hc & H).
      apply bind_ok in H. destruct H as (scores_i & Hi & H).
      apply bind_ok in H. destruct H as (ss & Hsc & H).
      inversion H; subst cs ss.
      destruct (Hpool _ _ Hc Hi Hsc) as (p & _ & Hpr & Hps). now exists p. }
  destruct Hp as (p & Hpr & Hps). exists p.
  split; [exact Hpr|]. split; [exact Hps|].
  split; [congruence|]. intros (q & _ & []).
Qed.

(** What a returning call has done for batch element [i], read on the
    two tag streams. *)
Lemma call_element (set_iter : list nat -> list nat) (self : t)
  (top_responses_batch : list (list string))
  (top_scores_batch : list (list R))
  (sentiment_batch intents_batch : list string) (random_sample : nat -> R)
  (responses_batch : list string) (responses_preds : list R)
  (i : nat) (responses : list string) :
  set_order set_iter ->
  (1 <= num_context_turns self)%nat ->
  let batch_size :=
    (num_context_turns self + List.length (hd [] top_responses_batch))%nat in
  (2 <= batch_size)%nat ->
  __call__ set_iter self top_responses_batch top_scores_batch sentiment_batch
       intents_batch random_sample = Ok (responses_batch, responses_preds) ->
  nth_error top_responses_batch i = Some responses ->
  let at_turn (tags : list string) :=
    nth (i * batch_size + num_context_turns self - 1) tags ""%string in
  let at_candidate (tags : list string) (p : nat) :=
    nth (i * batch_size + num_context_turns self + p) tags ""%string in
  let fi :=
    filter (fun j => intent_keeps (at_turn intents_batch)
                                  (at_candidate intents_batch j))
           (range (List.length responses)) in
  let fs :=
    filter (fun j => sentiment_keeps (at_turn sentiment_batch)
                                     (at_candidate sentiment_batch j))
           (range (List.length responses)) in
  exists p,
    nth_error responses p = Some (nth i responses_batch ""%string) /\
    nth_error (nth i top_scores_batch []) p = Some (nth i responses_preds 0) /\
    (fs <> [] -> In p fs) /\
    (((i + 1) * batch_size <= List.length intents_batch)%nat ->
     (exists q, In q fi /\ In q fs) -> In p fi /\ In p fs).
Proof.
  intros Horder Hnct batch_size Hbs Hcall Hresp at_turn at_candidate fi fs.
  unfold __call__ in Hcall.
  apply bind_ok in Hcall. destruct Hcall as (first & Hfirst & Hcall).
  assert (Hhd : hd [] top_responses_batch = first).
  { apply getitem_ok in Hfirst.
    destruct top_responses_batch; [discriminate | now inversion Hfirst]. }
  rewrite <- Hhd in Hcall. fold batch_size in Hcall.
  destruct (Nat.eqb_spec batch_size 0) as [Hz | _]; [lia|].
  apply loop_ok in Hcall.
  destruct Hcall as (new_r & new_p & Hout & _ & _ & Hk).
  simpl in Hout. inversion Hout; subst responses_batch responses_preds.
  assert (Hi : (i < List.length top_responses_batch)%nat)
    by (apply nth_error_Some; congruence).
  unfold range in Hk. rewrite length_seq in Hk. specialize (Hk i Hi).
  rewrite seq_nth in Hk by assumption. simpl in Hk.
  unfold element in Hk.
  apply bind_ok in Hk. destruct Hk as (responses' & Hr' & Hk).
  apply getitem_ok in Hr'.
  assert (responses' = responses) by congruence. subst responses'.
  apply bind_ok in Hk. destruct Hk as ((fi' & fs') & Hf & Hk).
  apply bind_ok in Hk. destruct Hk as ((candidates & scores) & Hsel & Hk).
  apply sample_ok in Hk. destruct Hk as (c & Hr & Hs).
  unfold filters in Hf.
  apply bind_ok in Hf. destruct Hf as (intents_i & Hgi & Hf).
  apply bind_ok in Hf. destruct Hf as (last_i & Hli & Hf).
  apply bind_ok in Hf. destruct Hf as (fi'' & Hfi & Hf).
  apply bind_ok in Hf. destruct Hf as (sentiment_i & Hgs & Hf).
  apply bind_ok in Hf. destruct Hf as (last_s & Hls & Hf).
  apply bind_ok in Hf. destruct Hf as (fs'' & Hfs & Hf).
  inversion Hf; subst fi'' fs''. clear Hf.
  apply reshape_getitem in Hgs. destruct Hgs as (Hg & Hgs).
  assert (Hlen_s : ((i + 1) * batch_size <= List.length sentiment_batch)%nat).
  { pose proof (Nat.Div0.mul_div_le (List.length sentiment_batch) batch_size).
    nia. }
  rewrite full_segment in Hgs by assumption. subst sentiment_i.
  apply filter_sentiment_spec in Hfs. destruct Hfs as (Hfs & Hn).
  assert (Hwidth : (num_context_turns self + List.length responses
                    <= batch_size)%nat).
  { unfold slice_from in Hn. rewrite length_skipn, slice_length in Hn by nia.
    destruct (List.length responses); lia. }
  apply group_last in Hls; [|exact Hnct | unfold batch_size; lia].
  assert (Efs : fs' = fs).
  { rewrite Hfs. unfold fs. apply filter_ext_in. intros j Hj.
    apply in_seq in Hj. rewrite group_tag by lia. now rewrite Hls. }
  clear Hfs. subst fs'.
  destruct (select_pool _ _ _ _ _ c Horder Hsel Hr Hs)
    as (p & Hpr & Hps & Hsent & Hboth).
  exists p. split; [exact Hpr|]. split; [exact Hps|].
  split; [exact Hsent|].
  intros Hlen_i.
  apply reshape_getitem in Hgi. destruct Hgi as (_ & Hgi).
  rewrite full_segment in Hgi by assumption. subst intents_i.
  apply group_last in Hli; [|exact Hnct | unfold batch_size; lia].
  assert (Efi : fi' = fi).
  { apply filter_intents_spec in Hfi. rewrite Hfi. unfold fi.
    apply filter_ext_in. intros j Hj. apply in_seq in Hj.
    rewrite group_tag by lia. now rewrite Hli. }
  subst fi'. exact Hboth.
Qed.

(** X16.  The sentiment filter takes precedence.  Let a call on a batch
    whose segments hold at least two tags, with at least one context
    turn, return.  If some candidate of batch element [i] passes the
    sentiment test of lines 85-98 against the sentiment of the last
    utterance, then the response returned for element [i] is a candidate
    that passes it, whatever the intent tags are; its sentiment tag is
    neither ["negative"] nor ["skip"].  The tags are read where the
    reshaping of lines 55-57 puts them: segment [i] of the stream holds
    the context turns first, then one tag per candidate. *)
Theorem chosen_response_passes_sentiment_filter
  (set_iter : list nat -> list nat) (self : t)
  (top_responses_batch : list (list string))
  (top_scores_batch : list (list R))
  (sentiment_batch intents_batch : list string) (random_sample : nat -> R)
  (responses_batch : list string) (responses_preds : list R)
  (i q : nat) (responses : list string) :
  set_order set_iter ->
  (1 <= num_context_turns self)%nat ->
  let batch_size :=
    (num_context_turns self + List.length (hd [] top_responses_batch))%nat in
  (2 <= batch_size)%nat ->
  __call__ set_iter self top_responses_batch top_scores_batch sentiment_batch
       intents_batch random_sample = Ok (responses_batch, responses_preds) ->
  nth_error top_responses_batch i = Some responses ->
  let last_utter_sentiment :=
    nth (i * batch_size + num_context_turns self - 1) sentiment_batch
        ""%string in
  let tag (p : nat) :=
    nth (i * batch_size + num_context_turns self + p) sentiment_batch
        ""%string in
  (q < List.length responses)%nat ->
  sentiment_keeps last_utter_sentiment (tag q) = true ->
  exists p,
    nth_error responses p = Some (nth i responses_batch ""%string) /\
    nth_error (nth i top_scores_batch []) p = Some (nth i responses_preds 0) /\
    sentiment_keeps last_utter_sentiment (tag p) = true /\
    tag p <> "negative"%string /\ tag p <> "skip"%string.
Proof.
  intros Horder Hnct batch_size Hbs Hcall Hresp last_utter_sentiment tag
         Hq Hkeep.
  destruct (@call_element set_iter self top_responses_batch top_scores_batch
              sentiment_batch intents_batch random_sample responses_batch
              responses_preds i responses Horder Hnct Hbs Hcall Hresp)
    as (p & Hpr & Hps & Hsent & _).
  exists p. split; [exact Hpr|]. split; [exact Hps|].
  assert (Hin : In p (filter (fun j => sentiment_keeps last_utter_sentiment
                                                       (tag j))
                             (range (List.length responses)))).
  { apply Hsent. intros Hnil.
    assert (Hqin : In q (filter (fun j => sentiment_keeps
                                            last_utter_sentiment (tag j))
                                (range (List.length responses)))).
    { apply filter_In. split; [apply in_seq; lia | exact Hkeep]. }
    fold batch_size in Hnil. fold last_utter_sentiment in Hnil.
    unfold tag in Hqin. rewrite Hnil in Hqin. destruct Hqin. }
  apply filter_In in Hin. destruct Hin as (_ & Hp).
  split; [exact Hp | exact (sentiment_keeps_not_negative _ _ Hp)].
Qed.

(** X17.  When the two tag streams are equally long and some candidate of
    batch element [i] passes both the intent test of lines 72-76 and the
    sentiment test of lines 85-98, the response a returning call gives
    for element [i] passes both. *)
Theorem chosen_response_passes_both_filters
  (set_iter : list nat -> list nat) (self : t)
  (top_responses_batch : list (list string))
  (top_scores_batch : list (list R))
  (sentiment_batch intents_batch : list string) (random_sample : nat -> R)
  (responses_batch : list string) (responses_preds : list R)
  (i q : nat) (responses : list string) :
  set_order set_iter ->
  (1 <= num_context_turns self)%nat ->
  let batch_size :=
    (num_context_turns self + List.length (hd [] top_responses_batch))%nat in
  (2 <= batch_size)%nat ->
  List.length intents_batch = List.length sentiment_batch ->
  __call__ set_iter self top_responses_batch top_scores_batch sentiment_batch
       intents_batch random_sample = Ok (responses_batch, responses_preds) ->
  nth_error top_responses_batch i = Some responses ->
  let at_turn (tags : list string) :=
    nth (i * batch_size + num_context_turns self - 1) tags ""%string in
  let at_candidate (tags : list string) (p : nat) :=
    nth (i * batch_size + num_context_turns self + p) tags ""%string in
  let passes (p : nat) :=
    intent_keeps (at_turn intents_batch) (at_candidate intents_batch p)
    && sentiment_keeps (at_turn sentiment_batch)
                       (at_candidate sentiment_batch p) in
  (q < List.length responses)%nat ->
  passes q = true ->
  exists p,
    nth_error responses p = Some (nth i responses_batch ""%string) /\
    nth_error (nth i top_scores_batch []) p = Some (nth i responses_preds 0) /\
    passes p = true.
Proof.
  intros Horder Hnct batch_size Hbs Hlen Hcall Hresp at_turn at_candidate
         passes Hq Hpass.
  destruct (@call_element set_iter self top_responses_batch top_scores_batch
              sentiment_batch intents_batch random_sample responses_batch
              responses_preds i responses Horder Hnct Hbs Hcall Hresp)
    as (p & Hpr & Hps & _ & Hboth).
  exists p. split; [exact Hpr|]. split; [exact Hps|].
  apply andb_true_iff in Hpass. destruct Hpass as (Hqi & Hqs).
  assert (Hfull : ((i + 1) * batch_size <= List.length intents_batch)%nat).
  { rewrite Hlen.
    assert (Hfirst : exists first,
               getitem top_responses_batch 0 = Ok first /\
               hd [] top_responses_batch = first).
    { destruct top_responses_batch as [|first rest];
        [destruct i; discriminate | now exists first]. }
    destruct Hfirst as (first & Hfirst & Hhd).
    unfold __call__ in Hcall. rewrite Hfirst in Hcall. cbn [bind] in Hcall.
    rewrite <- Hhd in Hcall. fold batch_size in Hcall.
    destruct (Nat.eqb_spec batch_size 0) as [Hz | _]; [lia|].
    apply loop_ok in Hcall.
    destruct Hcall as (new_r & new_p & _ & _ & _ & Hk).
    assert (Hi : (i < List.length top_responses_batch)%nat)
      by (apply nth_error_Some; congruence).
    unfold range in Hk. rewrite length_seq in Hk. specialize (Hk i Hi).
    rewrite seq_nth in Hk by assumption. simpl in Hk.
    unfold element in Hk.
    apply bind_ok in Hk. destruct Hk as (responses' & _ & Hk).
    apply bind_ok in Hk. destruct Hk as ((fi' & fs') & Hf & _).
    unfold filters in Hf.
    apply bind_ok in Hf. destruct Hf as (intents_i & Hgi & _).
    apply reshape_getitem in Hgi. destruct Hgi as (Hg & _).
    pose proof (Nat.Div0.mul_div_le (List.length sentiment_batch) batch_size).
    nia. }
  destruct (Hboth Hfull) as (Hpi & Hpsent).
  { exists q. split; apply filter_In; (split; [apply in_seq; lia|]);
      assumption. }
  apply filter_In in Hpi. apply filter_In in Hpsent.
  unfold passes. apply andb_true_iff. split; [apply Hpi | apply Hpsent].
Qed.

(** A pool of one candidate leaves the draw no choice. *)
Lemma sample_single (self : t) (c : string) (s u : R) :
  0 <= u < 1 -> sample self [c] [s] u = Ok (c, s).
Proof.
  intros Hu.
  destruct (@sample_total self [c] [s] u) as ((r & s') & H);
    [simpl; lia | simpl; lia | exact Hu |].
  rewrite H. destruct (sample_ok _ _ _ _ H) as (k & Hr & Hs).
  destruct k as [|[|k]]; simpl in Hr, Hs; try discriminate.
  now inversion Hr; inversion Hs; subst.
Qed.

(** A call on one element with two candidates: the last utterance is a
    neutral question, candidate ["a"] is tagged negative and candidate
    ["b"] positive. *)
Lemma neutral_question_call :
  __call__ (fun s => s) {| num_context_turns := 1; lambda_coeff := 10 |}
       [["a"; "b"]%string] [[1; 2]]
       ["neutral"; "negative"; "positive"]%string
       ["interrogative"; "declarative"; "declarative"]%string (fun _ => 0)
  = Ok (["b"]%string, [2]).
Proof.
  unfold __call__. cbn -[sample].
  rewrite sample_single by lra. reflexivity.
Qed.

Lemma chosen_response_passes_sentiment_filter_witness :
  exists p,
    nth_error ["a"; "b"]%string p = Some "b"%string /\
    nth_error [1; 2] p = Some 2 /\
    sentiment_keeps "neutral" (nth p ["negative"; "positive"]%string ""%string)
    = true.
Proof.
  destruct (@chosen_response_passes_sentiment_filter
              (fun s => s) {| num_context_turns := 1; lambda_coeff := 10 |}
              [["a"; "b"]%string] [[1; 2]]
              ["neutral"; "negative"; "positive"]%string
              ["interrogative"; "declarative"; "declarative"]%string
              (fun _ => 0) ["b"]%string [2] 0%nat 1%nat ["a"; "b"]%string
              identity_set_order ltac:(simpl; lia) ltac:(simpl; lia)
              neutral_question_call eq_refl ltac:(simpl; lia) eq_refl)
    as (p & Hr & Hs & Hk & _).
  exists p. split; [exact Hr|]. split; [exact Hs|].
  destruct p as [|[|[|p]]]; simpl in Hr;
    [discriminate Hr | reflexivity | discriminate Hr | discriminate Hr].
Defined.

Lemma chosen_response_passes_both_filters_witness :
  exists p,
    nth_error ["a"; "b"]%string p = Some "b"%string /\
    nth_error [1; 2] p = Some 2.
Proof.
  destruct (@chosen_response_passes_both_filters
              (fun s => s) {| num_context_turns := 1; lambda_coeff := 10 |}
              [["a"; "b"]%string] [[1; 2]]
              ["neutral"; "negative"; "positive"]%string
              ["interrogative"; "declarative"; "declarative"]%string
              (fun _ => 0) ["b"]%string [2] 0%nat 1%nat ["a"; "b"]%string
              identity_set_order ltac:(simpl; lia) ltac:(simpl; lia)
              eq_refl neutral_question_call eq_refl ltac:(simpl; lia) eq_refl)
    as (p & Hr & Hs & _).
  exists p. split; [exact Hr | exact Hs].
Defined.

(** *** The draw *)







End ChitChatReRankerEdges.
